(** * Young's modulus calculator: a model of [main.py] and its properties

    The program reads a material, the dimensions of a rod, a bending type and
    a series of weight/depression readings from the console, computes Young's
    modulus per reading with the closed-form beam formulas, averages, prints a
    report and optionally writes a short report to a file.

    Modelling conventions.
    - Numbers.  Python's [float] is the IEEE 754 binary64 format, and the
      program is embedded twice.  [Module Binary64] holds the functions that
      compute with the measurements (the moment of inertia, the two modulus
      computations) and the questions that read a [float], bit for bit:
      rounding, overflow to an infinity, underflow to zero, NaN and
      [OverflowError] are as in Python.  Every statement about a computed
      value, or about the numbers the program accepts, is made there.  The
      whole program, from the questions to the report file, is also kept over
      exact rationals [Q], operator by operator; that reading carries the
      statements that do not depend on rounding: what is printed and written
      and in which order, the catalog, the verdict, the save question, the
      symmetry in the sign of the deflection.
    - True division [/] raises [ZeroDivisionError] on a zero divisor; every
      [/] of the source is a [truediv] in the [result] monad.
    - Console and file effects are explicit: a [world] carries the pending
      input lines, the text printed so far and the files written.  Console
      text is held in UTF-8.
    - Python's text conversions of floats ([format], [float]) and [int] are
      builtins outside the program; the functions that use them take them as
      parameters.  In binary64 so are [x ** n], which is the C library's
      [pow], and [sum]. *)

From Stdlib Require Import ZArith QArith Qabs Qpower Lia Lqa List Ascii String DecimalString.
From Stdlib Require Import Floats.SpecFloat.
From stdpp Require Import gmap strings.

Open Scope Q_scope.

(** ** Python values, exceptions and true division *)

Module Py.

Inductive exn : Type :=
| ZeroDivisionError
| OverflowError
| IndexError
| KeyError
| EOFError.

Inductive result (A : Type) : Type :=
| Ok (a : A)
| Raise (e : exn).

Arguments Ok {A} a.
Arguments Raise {A} e.

Definition bind {A B : Type} (m : result A) (k : A -> result B) : result B :=
  match m with
  | Ok a => k a
  | Raise e => Raise e
  end.

(** [x / y] on numbers. *)
Definition truediv (x y : Q) : result Q :=
  if Qeq_bool y 0 then Raise ZeroDivisionError else Ok (x / y).

(** [sum(l)]: left to right, starting from [0]. *)
Definition sum (l : list Q) : Q := fold_left Qplus l 0.

(** [len(l)]. *)
Definition len {A : Type} (l : list A) : Z := Z.of_nat (length l).

(** [x != y], [x < y] and [x <= y] on numbers. *)
Definition ne (x y : Q) : bool := negb (Qeq_bool x y).
Definition lt (x y : Q) : bool := negb (Qle_bool y x).
Definition le (x y : Q) : bool := Qle_bool x y.

End Py.

Import Py.

Declare Scope py_scope.
Delimit Scope py_scope with py.
Notation "x <- m ;; k" := (Py.bind m (fun x => k))
  (at level 100, m at next level, right associativity) : py_scope.
Open Scope py_scope.

(** ** Physics in exact arithmetic: moment of inertia and the two modulus
       computations *)

(** A reading is the dict [{"reading_num": .., "weight": .., "depression": ..}]
    built by [get_readings]. *)
Record reading : Type := Reading {
  reading_num : Z;
  weight : Q;
  depression : Q
}.

(** [calculate_moment_of_inertia]: [(breadth * width**3) / 12]. *)
Definition calculate_moment_of_inertia (breadth width : Q) : result Q :=
  truediv (breadth * width ^ 3) 12.

(** The [for reading in readings] loop of [calculate_youngs_modulus_uniform];
    [youngs_moduli] is the list the loop appends to. *)
Fixpoint uniform_loop (length I : Q) (readings : list reading)
    (youngs_moduli : list Q) : result (list Q) :=
  match readings with
  | [] => Ok youngs_moduli
  | reading :: readings' =>
      weight_kg <- truediv (weight reading) 1000 ;;
      let force_N := weight_kg * 9.81 in
      depression_m <- truediv (depression reading) 100 ;;
      length_m <- truediv length 100 ;;
      I_m4 <- truediv I 100000000 ;;
      if Py.ne depression_m 0 then
        w <- truediv force_N length_m ;;
        Y <- truediv (5 * w * length_m ^ 4) (384 * I_m4 * Qabs depression_m) ;;
        Y_GPa <- truediv Y 1e9 ;;
        uniform_loop length I readings' (youngs_moduli ++ [Y_GPa])
      else
        uniform_loop length I readings' youngs_moduli
  end.

(** [sum(youngs_moduli) / len(youngs_moduli) if youngs_moduli else 0]. *)
Definition average (youngs_moduli : list Q) : result Q :=
  match youngs_moduli with
  | [] => Ok 0
  | _ :: _ => truediv (Py.sum youngs_moduli) (inject_Z (Py.len youngs_moduli))
  end.

Definition calculate_youngs_modulus_uniform
    (length breadth width : Q) (readings : list reading) : result Q :=
  I <- calculate_moment_of_inertia breadth width ;;
  youngs_moduli <- uniform_loop length I readings [] ;;
  average youngs_moduli.

(** The loop of [calculate_youngs_modulus_nonuniform]. *)
Fixpoint nonuniform_loop (length I : Q) (readings : list reading)
    (youngs_moduli : list Q) : result (list Q) :=
  match readings with
  | [] => Ok youngs_moduli
  | reading :: readings' =>
      weight_kg <- truediv (weight reading) 1000 ;;
      let force_N := weight_kg * 9.81 in
      depression_m <- truediv (depression reading) 100 ;;
      length_m <- truediv length 100 ;;
      I_m4 <- truediv I 100000000 ;;
      if Py.ne depression_m 0 then
        Y <- truediv (force_N * length_m ^ 3) (48 * I_m4 * Qabs depression_m) ;;
        Y_GPa <- truediv Y 1e9 ;;
        nonuniform_loop length I readings' (youngs_moduli ++ [Y_GPa])
      else
        nonuniform_loop length I readings' youngs_moduli
  end.

Definition calculate_youngs_modulus_nonuniform
    (length breadth width : Q) (readings : list reading) : result Q :=
  I <- calculate_moment_of_inertia breadth width ;;
  youngs_moduli <- nonuniform_loop length I readings [] ;;
  average youngs_moduli.

(** ** Strings, integers and containers as Python has them *)

Module PyStr.

(** The line feed that [print] and the report lines end with. *)
Definition nl : string := String (ascii_of_nat 10) EmptyString.

(** [s * n]. *)
Fixpoint repeat_string (s : string) (n : nat) : string :=
  match n with
  | O => ""
  | S n' => s +:+ repeat_string s n'
  end.

(** [format(s, "<width")]: left-justified, padded with spaces. *)
Definition ljust (width : nat) (s : string) : string :=
  s +:+ repeat_string " " (width - String.length s).

(** [str(z)] for an [int]. *)
Definition str_int (z : Z) : string := NilZero.string_of_int (Z.to_int z).

(** White space: the characters [c] for which [c.isspace()] holds, the ones
    that [str.strip] removes.  In UTF-8 a character outside ASCII takes two
    or three bytes; [code] is the value of a byte. *)
Definition code (c : ascii) : nat := nat_of_ascii c.

(** U+0009..U+000D and U+001C..U+0020. *)
Definition isspace (c : ascii) : bool :=
  let n := code c in
  ((9 <=? n) && (n <=? 13) || (28 <=? n) && (n <=? 32))%nat.

(** U+0085 and U+00A0. *)
Definition isspace2 (c1 c2 : ascii) : bool :=
  ((code c1 =? 194) && ((code c2 =? 133) || (code c2 =? 160)))%nat.

(** U+1680, U+2000..U+200A, U+2028, U+2029, U+202F, U+205F and U+3000. *)
Definition isspace3 (c1 c2 c3 : ascii) : bool :=
  ((code c1 =? 225) && (code c2 =? 154) && (code c3 =? 128)
   || (code c1 =? 226) && (code c2 =? 128)
      && ((128 <=? code c3) && (code c3 <=? 138)
          || (code c3 =? 168) || (code c3 =? 169) || (code c3 =? 175))
   || (code c1 =? 226) && (code c2 =? 129) && (code c3 =? 159)
   || (code c1 =? 227) && (code c2 =? 128) && (code c3 =? 128))%nat.

(** [s.lstrip()]. *)
Fixpoint lstrip (s : string) : string :=
  match s with
  | EmptyString => EmptyString
  | String c1 s1 =>
      if isspace c1 then lstrip s1
      else
        match s1 with
        | EmptyString => s
        | String c2 s2 =>
            if isspace2 c1 c2 then lstrip s2
            else
              match s2 with
              | EmptyString => s
              | String c3 s3 => if isspace3 c1 c2 c3 then lstrip s3 else s
              end
        end
  end.

(** [s] is white space only, or empty. *)
Definition only_space (s : string) : bool :=
  match lstrip s with
  | EmptyString => true
  | String _ _ => false
  end.

(** [s.rstrip()]: [s] up to the white space it ends with. *)
Fixpoint rstrip (s : string) : string :=
  match s with
  | EmptyString => EmptyString
  | String c s' => if only_space s then EmptyString else String c (rstrip s')
  end.

(** [s.strip()]. *)
Definition strip (s : string) : string := rstrip (lstrip s).

Definition lower_ascii (c : ascii) : ascii :=
  let n := nat_of_ascii c in
  if ((65 <=? n) && (n <=? 90))%nat then ascii_of_nat (n + 32) else c.

(** [s.lower()]: the letters [A]..[Z] become [a]..[z].  The bytes of a
    character outside ASCII stay as they are; none of those characters has
    [y], [e] or [s] for lower case. *)
Fixpoint lower (s : string) : string :=
  match s with
  | EmptyString => EmptyString
  | String c s' => String (lower_ascii c) (lower s')
  end.

(** [s in l] for a list of strings. *)
Definition str_in (s : string) (l : list string) : bool :=
  existsb (String.eqb s) l.

End PyStr.

Import PyStr.

Module PyData.

(** [l[i]] on a list: a negative index counts from the end, an index out of
    range raises [IndexError]. *)
Definition list_getitem {A : Type} (l : list A) (i : Z) : result A :=
  let n := Z.of_nat (length l) in
  let j := (if i <? 0 then i + n else i)%Z in
  if ((j <? 0) || (n <=? j))%Z then Raise IndexError
  else match nth_error l (Z.to_nat j) with
       | Some a => Ok a
       | None => Raise IndexError
       end.

(** A [dict] with string keys keeps its insertion order: an association
    list, first binding of a key wins on lookup. *)
Definition dict (V : Type) : Type := list (string * V).

Definition keys {V : Type} (d : dict V) : list string := map fst d.

Definition items {V : Type} (d : dict V) : list (string * V) := d.

(** [d[key]]. *)
Fixpoint dict_getitem {V : Type} (d : dict V) (key : string) : result V :=
  match d with
  | [] => Raise KeyError
  | (k, v) :: d' => if String.eqb k key then Ok v else dict_getitem d' key
  end.

End PyData.

Import PyData.

(** ** The material database *)

(** A number of the database is an [int] literal or a [float] literal; the
    two print differently and compare by value. *)
Inductive number : Type :=
| Int (z : Z)
| Float (q : Q).

Definition value (n : number) : Q :=
  match n with
  | Int z => inject_Z z
  | Float q => q
  end.

Record material : Type := Material {
  name : string;
  youngs_modulus : number;
  density : number
}.

Definition MATERIAL_DATABASE : dict material := [
  ("iron", Material "Iron" (Int 210) (Float 7.87));
  ("steel", Material "Steel (Mild)" (Int 200) (Float 7.85));
  ("stainless_steel", Material "Stainless Steel" (Int 190) (Float 8.00));
  ("aluminum", Material "Aluminum" (Int 69) (Float 2.70));
  ("copper", Material "Copper" (Int 130) (Float 8.96));
  ("brass", Material "Brass" (Int 100) (Float 8.50));
  ("oak_wood", Material "Oak Wood" (Int 11) (Float 0.75));
  ("pine_wood", Material "Pine Wood" (Int 9) (Float 0.55));
  ("teak_wood", Material "Teak Wood" (Int 12) (Float 0.65));
  ("bamboo", Material "Bamboo" (Int 20) (Float 0.60));
  ("plywood", Material "Plywood" (Int 6) (Float 0.55));
  ("pvc", Material "PVC" (Int 3) (Float 1.40));
  ("acrylic", Material "Acrylic" (Float 3.2) (Float 1.18))
].

(** ** Console and files *)

Module Console.

(** The world the program runs in: the lines still to be read from the
    console, the chunks of text printed so far (one per [print] or prompt)
    and the files of the working directory. *)
Record world : Type := World {
  stdin : list string;
  stdout : list string;
  files : gmap string string
}.

Definition IO (A : Type) : Type := world -> world * result A.

Definition ret {A : Type} (a : A) : IO A := fun w => (w, Ok a).

Definition iobind {A B : Type} (m : IO A) (k : A -> IO B) : IO B :=
  fun w =>
    match m w with
    | (w', Ok a) => k a w'
    | (w', Raise e) => (w', Raise e)
    end.

(** A pure computation that may raise. *)
Definition lift {A : Type} (r : result A) : IO A := fun w => (w, r).

(** [print(s, end="")]. *)
Definition write (s : string) : IO unit :=
  fun w => (World (stdin w) (stdout w ++ [s]) (files w), Ok tt).

(** [print(s)]. *)
Definition print (s : string) : IO unit := write (s +:+ nl).

(** [input()]: the next console line, [EOFError] when there is none. *)
Definition input : IO string :=
  fun w =>
    match stdin w with
    | [] => (w, Raise EOFError)
    | line :: rest => (World rest (stdout w) (files w), Ok line)
    end.

(** [with open(filename, 'w') as f: f.write(content)]: the file is created
    or replaced. *)
Definition write_file (filename content : string) : IO unit :=
  fun w => (World (stdin w) (stdout w) (<[filename := content]> (files w)), Ok tt).

(** The outcome of an input loop run on the pending lines: the chunks it
    printed, the lines it left, and its result. *)
Definition outcome (A : Type) : Type := list string * list string * result A.

(** One more round of a loop: [out] was printed before the rest ran. *)
Definition after {A : Type} (out : list string) (o : outcome A) : outcome A :=
  let '(out', rest, r) := o in (out ++ out', rest, r).

Definition reading_lines {A : Type} (loop : list string -> outcome A) : IO A :=
  fun w =>
    let '(out, rest, r) := loop (stdin w) in
    (World rest (stdout w ++ out) (files w), r).

End Console.

Import Console.

Notation "x <~ m ;; k" := (Console.iobind m (fun x => k))
  (at level 100, m at next level, right associativity) : py_scope.
Notation "'do' m ;; k" := (Console.iobind m (fun _ => k))
  (at level 100, m at next level, right associativity) : py_scope.

(** ** The program *)

Section Program.

(** Python's [int(s)] and [float(s)] on a console line ([None] when they
    raise [ValueError]) and [format(x, spec)] on a float ([spec = ""] is
    [str(x)]). *)
Variable int : string -> option Z.
Variable float : string -> option Q.
Variable format : Q -> string -> string.

(** [str(n)] for a number of the database. *)
Definition str_number (n : number) : string :=
  match n with
  | Int z => str_int z
  | Float q => format q ""
  end.

(** *** Input collection *)

(** The [for i, (key, material) in enumerate(MATERIAL_DATABASE.items(), 1)]
    loop of [display_materials]. *)
Fixpoint display_materials_loop (i : Z) (its : list (string * material)) : IO unit :=
  match its with
  | [] => ret tt
  | (key, material) :: its' =>
      do print (str_int i +:+ ". " +:+ ljust 20 (name material)
                +:+ " - Young's Modulus: "
                +:+ str_number (youngs_modulus material) +:+ " GPa") ;;
      display_materials_loop (i + 1) its'
  end.

Definition display_materials : IO unit :=
  do print (nl +:+ repeat_string "=" 60) ;;
  do print "AVAILABLE MATERIALS IN DATABASE" ;;
  do print (repeat_string "=" 60) ;;
  do display_materials_loop 1 (items MATERIAL_DATABASE) ;;
  print (repeat_string "=" 60).

(** The body of the [if 1 <= choice <= len(MATERIAL_DATABASE)] branch of
    [get_material_choice]: the key at position [choice - 1] and its entry. *)
Definition material_at (choice : Z) : result (string * material) :=
  material_key <- list_getitem (keys MATERIAL_DATABASE) (choice - 1) ;;
  material <- dict_getitem MATERIAL_DATABASE material_key ;;
  Ok (material_key, material).

(** One [choice] of the [while True] loop of [get_material_choice]:
    [Some] is the [return], [None] the [else] branch that asks again. *)
Definition material_choice (choice : Z) : option (result (string * material)) :=
  if ((1 <=? choice) && (choice <=? Py.len MATERIAL_DATABASE))%Z
  then Some (material_at choice)
  else None.

(** The [while True] loop of [get_material_choice], on the pending lines. *)
Fixpoint get_material_choice_loop (lines : list string)
    : outcome (string * material) :=
  match lines with
  | [] => (["Your choice: "], [], Raise EOFError)
  | line :: lines' =>
      match int line with
      | Some choice =>
          match material_choice choice with
          | Some r => (["Your choice: "], lines', r)
          | None =>
              after ["Your choice: ";
                     "Please enter a number between 1 and "
                       +:+ str_int (Py.len MATERIAL_DATABASE) +:+ nl]
                    (get_material_choice_loop lines')
          end
      | None =>
          after ["Your choice: ";
                 "Invalid input. Please enter a number." +:+ nl]
                (get_material_choice_loop lines')
      end
  end.

Definition get_material_choice : IO (string * material) :=
  do display_materials ;;
  do print (nl +:+ "Enter the number corresponding to your material:") ;;
  reading_lines get_material_choice_loop.

(** The [while True] loop of [get_dimensions]: a line that is not a number,
    or a dimension that is not positive, starts the three questions again. *)
Fixpoint get_dimensions_loop (lines : list string) : outcome (Q * Q * Q) :=
  let p1 := "Length of rod (in cm): " in
  let p2 := "Breadth of rod (in cm): " in
  let p3 := "Width/Thickness of rod (in cm): " in
  let invalid := "Invalid input. Please enter numerical values." +:+ nl in
  match lines with
  | [] => ([p1], [], Raise EOFError)
  | l1 :: lines1 =>
      match float l1 with
      | None => after [p1; invalid] (get_dimensions_loop lines1)
      | Some length =>
          match lines1 with
          | [] => ([p1; p2], [], Raise EOFError)
          | l2 :: lines2 =>
              match float l2 with
              | None => after [p1; p2; invalid] (get_dimensions_loop lines2)
              | Some breadth =>
                  match lines2 with
                  | [] => ([p1; p2; p3], [], Raise EOFError)
                  | l3 :: lines3 =>
                      match float l3 with
                      | None =>
                          after [p1; p2; p3; invalid] (get_dimensions_loop lines3)
                      | Some width =>
                          if Py.le length 0 || Py.le breadth 0 || Py.le width 0
                          then
                            after [p1; p2; p3;
                                   "All dimensions must be positive values. Please try again."
                                     +:+ nl]
                                  (get_dimensions_loop lines3)
                          else ([p1; p2; p3], lines3, Ok (length, breadth, width))
                      end
                  end
              end
          end
      end
  end.

Definition get_dimensions : IO (Q * Q * Q) :=
  do print (nl +:+ repeat_string "=" 60) ;;
  do print "ENTER ROD DIMENSIONS" ;;
  do print (repeat_string "=" 60) ;;
  reading_lines get_dimensions_loop.

(** The [while True] loop of [get_bending_type]. *)
Fixpoint get_bending_type_loop (lines : list string) : outcome Z :=
  let prompt := nl +:+ "Your choice (1 or 2): " in
  match lines with
  | [] => ([prompt], [], Raise EOFError)
  | line :: lines' =>
      match int line with
      | Some choice =>
          if ((choice =? 1) || (choice =? 2))%Z
          then ([prompt], lines', Ok choice)
          else after [prompt; "Please enter 1 or 2" +:+ nl]
                     (get_bending_type_loop lines')
      | None =>
          after [prompt; "Invalid input. Please enter 1 or 2." +:+ nl]
                (get_bending_type_loop lines')
      end
  end.

Definition get_bending_type : IO Z :=
  do print (nl +:+ repeat_string "=" 60) ;;
  do print "SELECT BENDING TYPE" ;;
  do print (repeat_string "=" 60) ;;
  do print "1. Uniform Bending (Load distributed uniformly)" ;;
  do print "2. Non-Uniform Bending (Point load at center)" ;;
  reading_lines get_bending_type_loop.

(** The first [while True] loop of [get_readings]: the number of readings. *)
Fixpoint num_readings_loop (lines : list string) : outcome Z :=
  let prompt := "How many readings do you want to take? " in
  match lines with
  | [] => ([prompt], [], Raise EOFError)
  | line :: lines' =>
      match int line with
      | Some num_readings =>
          if (num_readings <=? 0)%Z
          then after [prompt; "Please enter a positive number of readings." +:+ nl]
                     (num_readings_loop lines')
          else ([prompt], lines', Ok num_readings)
      | None =>
          after [prompt; "Invalid input. Please enter a number." +:+ nl]
                (num_readings_loop lines')
      end
  end.

(** The second loop: the weight added at each reading. *)
Fixpoint weight_increment_loop (lines : list string) : outcome Q :=
  let prompt := "Weight added at each reading (in grams): " in
  match lines with
  | [] => ([prompt], [], Raise EOFError)
  | line :: lines' =>
      match float line with
      | Some weight_increment =>
          if Py.le weight_increment 0
          then after [prompt; "Weight must be positive." +:+ nl]
                     (weight_increment_loop lines')
          else ([prompt], lines', Ok weight_increment)
      | None =>
          after [prompt; "Invalid input. Please enter a numerical value." +:+ nl]
                (weight_increment_loop lines')
      end
  end.

(** The [for i in range(num_readings)] loop with its inner [while True]:
    [i] is the loop variable, [todo] the number of readings still to take,
    [readings] the list appended to.  A line that is not a number asks for
    the same reading again. *)
Fixpoint readings_loop (weight_increment : Q) (lines : list string)
    (i : Z) (todo : nat) (readings : list reading) : outcome (list reading) :=
  match todo with
  | O => ([], lines, Ok readings)
  | S todo' =>
      let weight := weight_increment * inject_Z (i + 1) in
      let prompt :=
        "Reading " +:+ str_int (i + 1) +:+ " (Weight: " +:+ format weight ""
          +:+ " g): " in
      match lines with
      | [] => ([prompt], [], Raise EOFError)
      | line :: lines' =>
          match float line with
          | Some depression =>
              after [prompt]
                    (readings_loop weight_increment lines' (i + 1) todo'
                       (readings ++ [Reading (i + 1) weight depression]))
          | None =>
              after [prompt; "Invalid input. Please enter a numerical value." +:+ nl]
                    (readings_loop weight_increment lines' i todo readings)
          end
      end
  end.

Definition get_readings : IO (list reading * Q) :=
  do print (nl +:+ repeat_string "=" 60) ;;
  do print "MEASUREMENT READINGS" ;;
  do print (repeat_string "=" 60) ;;
  num_readings <~ reading_lines num_readings_loop ;;
  weight_increment <~ reading_lines weight_increment_loop ;;
  do print (nl +:+ "Enter the depression/elevation at each reading (in cm):") ;;
  do print "(Positive for depression/downward, Negative for elevation/upward)" ;;
  readings <~ reading_lines
    (fun lines => readings_loop weight_increment lines 0 (Z.to_nat num_readings) []) ;;
  ret (readings, weight_increment).

(** *** The report on the console *)

(** The block of the readings loop of [display_results] that computes
    [Y_GPa] for one reading. *)
Definition individual_modulus (length I : Q) (bending_type : Z)
    (reading : reading) : result Q :=
  weight_kg <- truediv (weight reading) 1000 ;;
  let force_N := weight_kg * 9.81 in
  depression_m <- truediv (depression reading) 100 ;;
  length_m <- truediv length 100 ;;
  I_m4 <- truediv I 100000000 ;;
  if Py.ne depression_m 0 then
    Y <- (if (bending_type =? 1)%Z then
            w <- truediv force_N length_m ;;
            truediv (5 * w * length_m ^ 4) (384 * I_m4 * Qabs depression_m)
          else
            truediv (force_N * length_m ^ 3) (48 * I_m4 * Qabs depression_m)) ;;
    truediv Y 1e9
  else Ok 0.

(** The row printed for one reading. *)
Definition reading_row (reading : reading) (Y_GPa : Q) : string :=
  ljust 10 (str_int (reading_num reading)) +:+ " "
  +:+ format (weight reading) "<15.2f" +:+ " "
  +:+ format (depression reading) "<20.4f" +:+ " "
  +:+ format Y_GPa "<20.2f".

(** The [for reading in readings] loop of [display_results]. *)
Fixpoint display_readings (length I : Q) (bending_type : Z)
    (readings : list reading) : IO unit :=
  match readings with
  | [] => ret tt
  | reading :: readings' =>
      Y_GPa <~ lift (individual_modulus length I bending_type reading) ;;
      do print (reading_row reading Y_GPa) ;;
      display_readings length I bending_type readings'
  end.

(** The block under [# Calculate percentage difference]. *)
Definition display_percentage_difference (material : material)
    (calculated_modulus : Q) : IO unit :=
  if Py.ne (value (youngs_modulus material)) 0 then
    ratio <~ lift (truediv (Qabs (calculated_modulus - value (youngs_modulus material)))
                           (value (youngs_modulus material))) ;;
    let percent_diff := ratio * 100 in
    print ("  Percentage Difference:       " +:+ format percent_diff ".2f" +:+ "%")
  else ret tt.

(** The block under [# Analysis]. *)
Definition display_analysis (material : material) (calculated_modulus : Q)
    : IO unit :=
  do print (nl +:+ "ANALYSIS:") ;;
  ratio <~ lift (truediv (Qabs (calculated_modulus - value (youngs_modulus material)))
                         (value (youngs_modulus material))) ;;
  if Py.lt ratio 0.2 then
    print "  ✓ Results are consistent with expected values for this material."
  else
    do print "  ⚠ Results differ significantly from expected values." ;;
    do print "    Possible reasons: measurement errors, material impurities," ;;
    print "    temperature effects, or non-ideal experimental conditions.".

Definition display_results (material_key : string) (material : material)
    (length breadth width : Q) (bending_type : Z) (readings : list reading)
    (calculated_modulus : Q) : IO unit :=
  do print (nl +:+ repeat_string "=" 80) ;;
  do print "YOUNG'S MODULUS CALCULATION RESULTS" ;;
  do print (repeat_string "=" 80) ;;
  do print (nl +:+ "MATERIAL INFORMATION:") ;;
  do print ("  Material: " +:+ name material) ;;
  do print ("  Expected Young's Modulus: "
            +:+ str_number (youngs_modulus material) +:+ " GPa") ;;
  do print ("  Density: " +:+ str_number (density material) +:+ " g/cm³") ;;
  do print (nl +:+ "ROD DIMENSIONS:") ;;
  do print ("  Length: " +:+ format length "" +:+ " cm") ;;
  do print ("  Breadth: " +:+ format breadth "" +:+ " cm") ;;
  do print ("  Width/Thickness: " +:+ format width "" +:+ " cm") ;;
  do print (nl +:+ "BENDING TYPE:") ;;
  let bending_name :=
    if (bending_type =? 1)%Z then "Uniform Bending"
    else "Non-Uniform Bending (Point Load)" in
  do print ("  " +:+ bending_name) ;;
  I <~ lift (calculate_moment_of_inertia breadth width) ;;
  do print (nl +:+ "MOMENT OF INERTIA: " +:+ format I ".6f" +:+ " cm⁴") ;;
  do print (nl +:+ repeat_string "-" 80) ;;
  do print "MEASUREMENT READINGS" ;;
  do print (repeat_string "-" 80) ;;
  do print (ljust 10 "Reading" +:+ " " +:+ ljust 15 "Weight (g)" +:+ " "
            +:+ ljust 20 "Depression (cm)" +:+ " "
            +:+ ljust 20 "Individual Y (GPa)") ;;
  do print (repeat_string "-" 80) ;;
  do display_readings length I bending_type readings ;;
  do print (repeat_string "-" 80) ;;
  do print (nl +:+ repeat_string "=" 80) ;;
  do print "FINAL YOUNG'S MODULUS (Calculated Average)" ;;
  do print (repeat_string "=" 80) ;;
  do print (nl +:+ "  Calculated Young's Modulus: "
            +:+ format calculated_modulus ".2f" +:+ " GPa") ;;
  do print ("  Expected Young's Modulus:   "
            +:+ str_number (youngs_modulus material) +:+ " GPa") ;;
  do display_percentage_difference material calculated_modulus ;;
  do print (nl +:+ repeat_string "=" 80) ;;
  do display_analysis material calculated_modulus ;;
  print (nl +:+ repeat_string "=" 80).

(** *** The report file and the main program *)

(** The lines written by the [for reading in readings] loop of the save
    branch of [main]. *)
Fixpoint report_readings (readings : list reading) : string :=
  match readings with
  | [] => ""
  | reading :: readings' =>
      ("  " +:+ str_int (reading_num reading)
       +:+ ": Weight=" +:+ format (weight reading) "" +:+ "g, "
       +:+ "Depression=" +:+ format (depression reading) "" +:+ "cm" +:+ nl)
      +:+ report_readings readings'
  end.

(** Everything [f.write] puts in the file, in order. *)
Definition file_report (material : material) (length breadth width : Q)
    (bending_type : Z) (readings : list reading) (calculated_modulus : Q)
    : string :=
  (repeat_string "=" 80 +:+ nl)
  +:+ ("YOUNG'S MODULUS CALCULATION RESULTS" +:+ nl)
  +:+ (repeat_string "=" 80 +:+ nl +:+ nl)
  +:+ ("Material: " +:+ name material +:+ nl)
  +:+ ("Expected Young's Modulus: "
       +:+ str_number (youngs_modulus material) +:+ " GPa" +:+ nl)
  +:+ ("Calculated Young's Modulus: "
       +:+ format calculated_modulus ".2f" +:+ " GPa" +:+ nl +:+ nl)
  +:+ ("Rod Dimensions: L=" +:+ format length "" +:+ "cm, B="
       +:+ format breadth "" +:+ "cm, W=" +:+ format width "" +:+ "cm" +:+ nl)
  +:+ ("Bending Type: "
       +:+ (if (bending_type =? 1)%Z then "Uniform" else "Non-Uniform")
       +:+ nl +:+ nl)
  +:+ ("Readings:" +:+ nl)
  +:+ report_readings readings.

(** [f"youngs_modulus_{material_key}_{bending_type}.txt"]. *)
Definition report_filename (material_key : string) (bending_type : Z) : string :=
  "youngs_modulus_" +:+ material_key +:+ "_" +:+ str_int bending_type +:+ ".txt".

(** The end of [main], from [# Save option] on. *)
Definition save_option (material_key : string) (material : material)
    (length breadth width : Q) (bending_type : Z) (readings : list reading)
    (calculated_modulus : Q) : IO unit :=
  do write (nl +:+ "Would you like to save these results to a file? (yes/no): ") ;;
  line <~ input ;;
  let save_choice := lower (strip line) in
  do (if str_in save_choice ["yes"; "y"] then
        let filename := report_filename material_key bending_type in
        do write_file filename
             (file_report material length breadth width bending_type readings
                calculated_modulus) ;;
        print (nl +:+ "✓ Results saved to " +:+ filename)
      else ret tt) ;;
  do print (nl +:+ "Thank you for using the Young's Modulus Measurement System!") ;;
  print (repeat_string "=" 80).

Definition main : IO unit :=
  do print (repeat_string "=" 80) ;;
  do print "YOUNG'S MODULUS MEASUREMENT SYSTEM" ;;
  do print "For Thin Sheet-Like Rod Materials" ;;
  do print (repeat_string "=" 80) ;;
  choice <~ get_material_choice ;;
  let '(material_key, material) := choice in
  dimensions <~ get_dimensions ;;
  let '(length, breadth, width) := dimensions in
  bending_type <~ get_bending_type ;;
  collected <~ get_readings ;;
  let '(readings, weight_increment) := collected in
  calculated_modulus <~ lift
    (if (bending_type =? 1)%Z
     then calculate_youngs_modulus_uniform length breadth width readings
     else calculate_youngs_modulus_nonuniform length breadth width readings) ;;
  do display_results material_key material length breadth width bending_type
       readings calculated_modulus ;;
  save_option material_key material length breadth width bending_type readings
    calculated_modulus.

End Program.

(** ** The numerical functions in binary64

    Python's [float] is the IEEE 754 binary64 format.  The functions that
    compute with the readings are embedded a second time here, bit for bit:
    [*], [/] and [abs] are the correctly rounded operations of
    [SpecFloat], [/] raises [ZeroDivisionError] on a zero divisor, products
    overflow to an infinity and underflow to zero without raising.  Python's
    [x ** n] (the C library's [pow], which raises [OverflowError] when the
    power is too large) and [sum] (whose rounding depends on the version of
    Python) are builtins outside the program: the functions take them as
    parameters.  An [int] that meets a [float] is converted first. *)

Module Binary64.

Definition t : Type := spec_float.
Definition prec : Z := 53.
Definition emax : Z := 1024.

(** [float(z)] for an [int] in range: the nearest binary64 number. *)
Definition of_int (z : Z) : t := binary_normalize prec emax z 0 false.

(** The conversion of an [int] operand, [OverflowError] when it is too large
    for a [float]. *)
Definition float_of_int (z : Z) : result t :=
  match of_int z with
  | S754_infinity _ => Raise OverflowError
  | x => Ok x
  end.

(** The literal [n / 10^k] written in decimal: the nearest binary64 number
    to it. *)
Definition decimal (n : Z) (k : nat) : t :=
  match n with
  | Z0 => S754_zero false
  | Zpos p =>
      let '(q, e, l) := SFdiv_core_binary prec emax (Zpos p) 0 (10 ^ Z.of_nat k) 0 in
      binary_round_aux prec emax false q e l
  | Zneg p =>
      let '(q, e, l) := SFdiv_core_binary prec emax (Zpos p) 0 (10 ^ Z.of_nat k) 0 in
      binary_round_aux prec emax true q e l
  end.

Definition mul : t -> t -> t := SFmul prec emax.
Definition add : t -> t -> t := SFadd prec emax.
Definition sub : t -> t -> t := SFsub prec emax.
Definition div : t -> t -> t := SFdiv prec emax.
Definition abs : t -> t := SFabs.
Definition opp : t -> t := SFopp.

(** [x == y], [x != y], [x < y] and [x <= y]: every comparison with a NaN
    is false, except [!=]. *)
Definition eqb : t -> t -> bool := SFeqb.
Definition ne (x y : t) : bool := negb (SFeqb x y).
Definition ltb : t -> t -> bool := SFltb.
Definition leb : t -> t -> bool := SFleb.

(** [x / y]. *)
Definition truediv (x y : t) : result t :=
  if eqb y (of_int 0) then Raise ZeroDivisionError else Ok (div x y).

Record reading : Type := Reading {
  reading_num : Z;
  weight : t;
  depression : t
}.

Section Program.

(** [x ** n] and [sum(l)]. *)
Variable pow : t -> Z -> result t.
Variable sum : list t -> t.

(** [calculate_moment_of_inertia]: [(breadth * width**3) / 12]. *)
Definition calculate_moment_of_inertia (breadth width : t) : result t :=
  p <- pow width 3 ;;
  truediv (mul breadth p) (of_int 12).

(** The [for reading in readings] loop of [calculate_youngs_modulus_uniform];
    [youngs_moduli] is the list the loop appends to. *)
Fixpoint uniform_loop (length I : t) (readings : list reading)
    (youngs_moduli : list t) : result (list t) :=
  match readings with
  | [] => Ok youngs_moduli
  | reading :: readings' =>
      weight_kg <- truediv (weight reading) (of_int 1000) ;;
      let force_N := mul weight_kg (decimal 981 2) in
      depression_m <- truediv (depression reading) (of_int 100) ;;
      length_m <- truediv length (of_int 100) ;;
      I_m4 <- truediv I (of_int 100000000) ;;
      if ne depression_m (of_int 0) then
        w <- truediv force_N length_m ;;
        p <- pow length_m 4 ;;
        Y <- truediv (mul (mul (of_int 5) w) p)
                     (mul (mul (of_int 384) I_m4) (abs depression_m)) ;;
        Y_GPa <- truediv Y (of_int 1000000000) ;;
        uniform_loop length I readings' (youngs_moduli ++ [Y_GPa])
      else
        uniform_loop length I readings' youngs_moduli
  end.

(** [sum(youngs_moduli) / len(youngs_moduli) if youngs_moduli else 0]; the
    [int] [0] is returned as the [float] of the same value. *)
Definition average (youngs_moduli : list t) : result t :=
  match youngs_moduli with
  | [] => Ok (of_int 0)
  | _ :: _ =>
      n <- float_of_int (Py.len youngs_moduli) ;;
      truediv (sum youngs_moduli) n
  end.

Definition calculate_youngs_modulus_uniform
    (length breadth width : t) (readings : list reading) : result t :=
  I <- calculate_moment_of_inertia breadth width ;;
  youngs_moduli <- uniform_loop length I readings [] ;;
  average youngs_moduli.

(** The loop of [calculate_youngs_modulus_nonuniform]. *)
Fixpoint nonuniform_loop (length I : t) (readings : list reading)
    (youngs_moduli : list t) : result (list t) :=
  match readings with
  | [] => Ok youngs_moduli
  | reading :: readings' =>
      weight_kg <- truediv (weight reading) (of_int 1000) ;;
      let force_N := mul weight_kg (decimal 981 2) in
      depression_m <- truediv (depression reading) (of_int 100) ;;
      length_m <- truediv length (of_int 100) ;;
      I_m4 <- truediv I (of_int 100000000) ;;
      if ne depression_m (of_int 0) then
        p <- pow length_m 3 ;;
        Y <- truediv (mul force_N p)
                     (mul (mul (of_int 48) I_m4) (abs depression_m)) ;;
        Y_GPa <- truediv Y (of_int 1000000000) ;;
        nonuniform_loop length I readings' (youngs_moduli ++ [Y_GPa])
      else
        nonuniform_loop length I readings' youngs_moduli
  end.

Definition calculate_youngs_modulus_nonuniform
    (length breadth width : t) (readings : list reading) : result t :=
  I <- calculate_moment_of_inertia breadth width ;;
  youngs_moduli <- nonuniform_loop length I readings [] ;;
  average youngs_moduli.

End Program.

(** *** The questions that read a [float] *)

Section Questions.

(** [float(s)] on a console line, [None] when it raises [ValueError]; it
    returns an infinity for ["inf"] and a NaN for ["nan"]. *)
Variable float : string -> option t.

(** The [while True] loop of [get_dimensions]. *)
Fixpoint get_dimensions_loop (lines : list string) : outcome (t * t * t) :=
  let p1 := "Length of rod (in cm): " in
  let p2 := "Breadth of rod (in cm): " in
  let p3 := "Width/Thickness of rod (in cm): " in
  let invalid := "Invalid input. Please enter numerical values." +:+ nl in
  match lines with
  | [] => ([p1], [], Raise EOFError)
  | l1 :: lines1 =>
      match float l1 with
      | None => after [p1; invalid] (get_dimensions_loop lines1)
      | Some length =>
          match lines1 with
          | [] => ([p1; p2], [], Raise EOFError)
          | l2 :: lines2 =>
              match float l2 with
              | None => after [p1; p2; invalid] (get_dimensions_loop lines2)
              | Some breadth =>
                  match lines2 with
                  | [] => ([p1; p2; p3], [], Raise EOFError)
                  | l3 :: lines3 =>
                      match float l3 with
                      | None =>
                          after [p1; p2; p3; invalid] (get_dimensions_loop lines3)
                      | Some width =>
                          if leb length (of_int 0) || leb breadth (of_int 0)
                             || leb width (of_int 0)
                          then
                            after [p1; p2; p3;
                                   "All dimensions must be positive values. Please try again."
                                     +:+ nl]
                                  (get_dimensions_loop lines3)
                          else ([p1; p2; p3], lines3, Ok (length, breadth, width))
                      end
                  end
              end
          end
      end
  end.

(** The second [while True] loop of [get_readings]: the weight added at each
    reading. *)
Fixpoint weight_increment_loop (lines : list string) : outcome t :=
  let prompt := "Weight added at each reading (in grams): " in
  match lines with
  | [] => ([prompt], [], Raise EOFError)
  | line :: lines' =>
      match float line with
      | Some weight_increment =>
          if leb weight_increment (of_int 0)
          then after [prompt; "Weight must be positive." +:+ nl]
                     (weight_increment_loop lines')
          else ([prompt], lines', Ok weight_increment)
      | None =>
          after [prompt; "Invalid input. Please enter a numerical value." +:+ nl]
                (weight_increment_loop lines')
      end
  end.

End Questions.

(** *** Notions used in the statements *)

(** A reading counts in the average when its deflection in metres,
    [depression / 100], is not zero. *)
Definition included (r : reading) : bool :=
  ne (div (depression r) (of_int 100)) (of_int 0).

(** What the guards [x <= 0] of the questions let through. *)
Definition not_le_zero (x : t) : bool := negb (leb x (of_int 0)).

(** The same reading with the deflection measured in the other direction. *)
Definition negate_deflection (r : reading) : reading :=
  Reading (reading_num r) (weight r) (opp (depression r)).

(** 30.656250000000004, the result of the example of the specification. *)
Definition example_modulus : t := S754_finite false 8628967254786049 (-48).


(** [f] on every element, in order, up to the first that raises. *)
Fixpoint traverse {A B : Type} (f : A -> result B) (l : list A) : result (list B) :=
  match l with
  | [] => Ok []
  | a :: l' => b <- f a ;; bs <- traverse f l' ;; Ok (b :: bs)
  end.

Section Formulas.

Variable pow : t -> Z -> result t.

(** The specification's wording of the two formulas for one reading, on a
    rod of length [L] (in cm) and moment of inertia [I] (in cm^4), each
    operation in binary64. *)
Definition uniform_value (L I : t) (r : reading) : result t :=
  let force := mul (div (weight r) (of_int 1000)) (decimal 981 2) in
  let length_m := div L (of_int 100) in
  let I_m4 := div I (of_int 100000000) in
  let deflection_m := div (depression r) (of_int 100) in
  w <- truediv force length_m ;;
  p <- pow length_m 4 ;;
  Y <- truediv (mul (mul (of_int 5) w) p)
               (mul (mul (of_int 384) I_m4) (abs deflection_m)) ;;
  Ok (div Y (of_int 1000000000)).

Definition point_load_value (L I : t) (r : reading) : result t :=
  let force := mul (div (weight r) (of_int 1000)) (decimal 981 2) in
  let length_m := div L (of_int 100) in
  let I_m4 := div I (of_int 100000000) in
  let deflection_m := div (depression r) (of_int 100) in
  p <- pow length_m 3 ;;
  Y <- truediv (mul force p)
               (mul (mul (of_int 48) I_m4) (abs deflection_m)) ;;
  Ok (div Y (of_int 1000000000)).

End Formulas.

(** A [pow] and a [sum] to run the functions with: the correctly rounded
    power of a finite number, [OverflowError] when it is too large, and the
    sum from left to right starting from [0]. *)
Definition power (x : t) (n : Z) : result t :=
  match x with
  | S754_finite s m e =>
      match binary_normalize prec emax (cond_Zopp s (Zpos m) ^ n) (e * n) false with
      | S754_infinity _ => Raise OverflowError
      | y => Ok y
      end
  | _ => Ok x
  end.

Definition sum_left (l : list t) : t := fold_left add l (of_int 0).

End Binary64.

(** ** Notions used in the statements *)

(** A reading counts in the average when its deflection is not zero. *)
Definition included (r : reading) : bool := Py.ne (depression r) 0.

(** The same reading with the deflection measured in the other direction. *)
Definition negate_deflection (r : reading) : reading :=
  Reading (reading_num r) (weight r) (- depression r).

(** Two readings that differ at most in the direction of the deflection. *)
Definition same_up_to_sign (r r' : reading) : Prop :=
  r' = r \/ r' = negate_deflection r.

(** [m] always raises [e]; [m] returns or raises [e]. *)
Definition always_raises {A : Type} (e : exn) (m : IO A) : Prop :=
  forall w, snd (m w) = Raise e.

Definition returns_or_raises {A : Type} (e : exn) (m : IO A) : Prop :=
  forall w, (exists a, snd (m w) = Ok a) \/ snd (m w) = Raise e.

(** The two verdicts of the analysis, as printed. *)
Definition consistent_verdict : list string :=
  ["  ✓ Results are consistent with expected values for this material." +:+ nl].

Definition differs_verdict : list string :=
  ["  ⚠ Results differ significantly from expected values." +:+ nl;
   "    Possible reasons: measurement errors, material impurities," +:+ nl;
   "    temperature effects, or non-ideal experimental conditions." +:+ nl].

(** What the end of [main] prints. *)
Definition save_question : string :=
  nl +:+ "Would you like to save these results to a file? (yes/no): ".

Definition saved_line (filename : string) : string :=
  (nl +:+ "✓ Results saved to " +:+ filename) +:+ nl.

Definition closing : list string :=
  [(nl +:+ "Thank you for using the Young's Modulus Measurement System!") +:+ nl;
   repeat_string "=" 80 +:+ nl].

(** The operator's answer to the save question counts as a yes. *)
Definition affirmative (line : string) : bool :=
  str_in (lower (strip line)) ["yes"; "y"].

(** The white-space characters, each as its bytes in UTF-8. *)
Definition utf8 (bytes : list nat) : string :=
  string_of_list_ascii (map ascii_of_nat bytes).

Definition whitespace : list string :=
  map utf8
    [[9]; [10]; [11]; [12]; [13]; [28]; [29]; [30]; [31]; [32];
     [194; 133]; [194; 160]; [225; 154; 128];
     [226; 128; 128]; [226; 128; 129]; [226; 128; 130]; [226; 128; 131];
     [226; 128; 132]; [226; 128; 133]; [226; 128; 134]; [226; 128; 135];
     [226; 128; 136]; [226; 128; 137]; [226; 128; 138];
     [226; 128; 168]; [226; 128; 169]; [226; 128; 175]; [226; 129; 159];
     [227; 128; 128]]%nat.

(** A string made of white-space characters only. *)
Inductive all_space : string -> Prop :=
| all_space_empty : all_space ""
| all_space_more (c s : string) :
    In c whitespace -> all_space s -> all_space (c +:+ s).

Definition yes_spellings : list string :=
  ["y"; "Y"; "yes"; "yeS"; "yEs"; "yES"; "Yes"; "YeS"; "YEs"; "YES"].

(** The specification's wording of the two formulas, in plain rational
    arithmetic, to compare the program with. *)
Module Spec.

Definition uniform_modulus (length_cm breadth thickness : Q)
    (weight_g deflection_cm : Q) : Q :=
  let force := weight_g / 1000 * 9.81 in
  let length_m := length_cm / 100 in
  let I_m4 := breadth * thickness ^ 3 / 12 / 1e8 in
  let deflection_m := deflection_cm / 100 in
  let w := force / length_m in
  5 * w * length_m ^ 4 / (384 * I_m4 * Qabs deflection_m) / 1e9.

Definition point_load_modulus (length_cm breadth thickness : Q)
    (weight_g deflection_cm : Q) : Q :=
  let force := weight_g / 1000 * 9.81 in
  let length_m := length_cm / 100 in
  let I_m4 := breadth * thickness ^ 3 / 12 / 1e8 in
  let deflection_m := deflection_cm / 100 in
  force * length_m ^ 3 / (48 * I_m4 * Qabs deflection_m) / 1e9.

Definition uniform_of (length_cm breadth thickness : Q) (r : reading) : Q :=
  uniform_modulus length_cm breadth thickness (weight r) (depression r).

Definition point_load_of (length_cm breadth thickness : Q) (r : reading) : Q :=
  point_load_modulus length_cm breadth thickness (weight r) (depression r).

(** The arithmetic mean; [0] for no value at all. *)
Definition mean (ys : list Q) : Q :=
  match ys with
  | [] => 0
  | _ :: _ => fold_right Qplus 0 ys / inject_Z (Z.of_nat (length ys))
  end.

End Spec.

(** Reading the readings of a report file back: after the line
    ["Readings:"], one line per reading,
    ["  <index>: Weight=<g>g, Depression=<cm>cm"].  The program itself never
    reads its report; this reader follows the format of the file, cutting a
    line at its first [":"], ["g"] and ["c"]. *)
Module ReportReader.

(** The text before the first [c] and the text after it. *)
Fixpoint split_at (c : ascii) (s : string) : option (string * string) :=
  match s with
  | EmptyString => None
  | String a s' =>
      if Ascii.eqb a c then Some (EmptyString, s')
      else match split_at c s' with
           | Some (l, r) => Some (String a l, r)
           | None => None
           end
  end.

(** [s] without its prefix [p]. *)
Fixpoint strip_prefix (p s : string) : option string :=
  match p, s with
  | EmptyString, _ => Some s
  | String a p', String b s' => if Ascii.eqb a b then strip_prefix p' s' else None
  | String _ _, EmptyString => None
  end.

(** The lines of a text, without their line feeds. *)
Fixpoint lines_of (s : string) : list string :=
  match s with
  | EmptyString => []
  | String c s' =>
      if Ascii.eqb c (ascii_of_nat 10) then EmptyString :: lines_of s'
      else match lines_of s' with
           | [] => [String c EmptyString]
           | l :: ls => String c l :: ls
           end
  end.

(** The lines that follow the first line equal to [heading]. *)
Fixpoint after_heading (heading : string) (ls : list string)
    : option (list string) :=
  match ls with
  | [] => None
  | l :: ls' => if String.eqb l heading then Some ls' else after_heading heading ls'
  end.

Section Reader.

Variable float : string -> option Q.

(** Weight and depression of one line. *)
Definition read_line (line : string) : option (Q * Q) :=
  '(_, rest) ← split_at ":" line;
  rest ← strip_prefix " Weight=" rest;
  '(weight_text, rest) ← split_at "g" rest;
  rest ← strip_prefix ", Depression=" rest;
  '(depression_text, rest) ← split_at "c" rest;
  if String.eqb rest "m" then
    weight ← float weight_text;
    depression ← float depression_text;
    Some (weight, depression)
  else None.

Definition read_readings (text : string) : option (list (Q * Q)) :=
  mapM read_line (lines_of text).

Definition read_report (text : string) : option (list (Q * Q)) :=
  ls ← after_heading "Readings:" (lines_of text);
  mapM read_line ls.

End Reader.

End ReportReader.

Import ReportReader.

(** What the round trip asks of the text conversions. *)
Module Text.

(** [c] does not occur in [s]. *)
Definition free_of (c : ascii) (s : string) : bool :=
  forallb (fun a => negb (Ascii.eqb a c)) (list_ascii_of_string s).

Definition one_line (s : string) : bool := free_of (ascii_of_nat 10) s.

(** The characters Python writes a float with: digits, sign, point,
    exponent, and the letters of [inf] and [nan]. *)
Definition float_char (c : ascii) : bool :=
  existsb (Ascii.eqb c) (list_ascii_of_string "0123456789.e+-infa").

Definition float_text (s : string) : bool :=
  forallb float_char (list_ascii_of_string s).

(** [x] is written with those characters and [float] reads it back. *)
Definition readable (format : Q -> string -> string)
    (float : string -> option Q) (x : Q) : Prop :=
  float (format x "") = Some x /\ float_text (format x "") = true.

Definition unlines (ls : list string) : string :=
  fold_right (fun l text => l +:+ nl +:+ text) "" ls.

(** The line of one reading, cut at the separators the reader looks for. *)
Definition report_line (format : Q -> string -> string) (r : reading) : string :=
  ("  " +:+ str_int (reading_num r)) +:+
  String ":" (" Weight=" +:+ (format (weight r) "" +:+
  String "g" (", Depression=" +:+ (format (depression r) "" +:+ String "c" "m")))).

(** The lines of the report before ["Readings:"]. *)
Definition header_lines (format : Q -> string -> string) (material : material)
    (L B W : Q) (bending_type : Z) (calculated : Q) : list string :=
  [repeat_string "=" 80;
   "YOUNG'S MODULUS CALCULATION RESULTS";
   repeat_string "=" 80;
   "";
   "Material: " +:+ name material;
   "Expected Young's Modulus: " +:+ str_number format (youngs_modulus material)
     +:+ " GPa";
   "Calculated Young's Modulus: " +:+ format calculated ".2f" +:+ " GPa";
   "";
   "Rod Dimensions: L=" +:+ format L "" +:+ "cm, B=" +:+ format B ""
     +:+ "cm, W=" +:+ format W "" +:+ "cm";
   "Bending Type: " +:+ (if (bending_type =? 1)%Z then "Uniform" else "Non-Uniform");
   ""].

(** The numbers of the header, as written. *)
Definition header_values (format : Q -> string -> string) (material : material)
    (L B W calculated : Q) : list string :=
  [str_number format (youngs_modulus material); format calculated ".2f";
   format L ""; format B ""; format W ""].

(** Conversions of whole numbers, to run the statements on. *)
Definition sample_format (x : Q) (spec : string) : string := str_int (Qnum x).

Definition sample_int (s : string) : option Z :=
  option_map Z.of_int (NilZero.int_of_string s).

Definition sample_float (s : string) : option Q :=
  option_map inject_Z (sample_int s).

End Text.

Import Text.

(** ** Notions used in the further properties *)

(** The dispatch of [main] on the bending type. *)
Definition calculated (bending_type : Z) (length breadth width : Q)
    (readings : list reading) : result Q :=
  if (bending_type =? 1)%Z
  then calculate_youngs_modulus_uniform length breadth width readings
  else calculate_youngs_modulus_nonuniform length breadth width readings.

(** The formula that goes with a bending type. *)
Definition modulus_formula (bending_type : Z) (L B W : Q) (r : reading) : Q :=
  if (bending_type =? 1)%Z then Spec.uniform_of L B W r
  else Spec.point_load_of L B W r.

(** The value of the first line that parses to an acceptable value, and the
    lines after it. *)
Fixpoint first_accepted {A : Type} (parse : string -> option A) (ok : A -> bool)
    (lines : list string) : option (A * list string) :=
  match lines with
  | [] => None
  | line :: lines' =>
      match parse line with
      | Some a => if ok a then Some (a, lines') else first_accepted parse ok lines'
      | None => first_accepted parse ok lines'
      end
  end.

(** What each question accepts. *)
Definition material_number (z : Z) : bool :=
  ((1 <=? z) && (z <=? Py.len MATERIAL_DATABASE))%Z.
Definition bending_number (z : Z) : bool := ((z =? 1) || (z =? 2))%Z.
Definition positive_int (z : Z) : bool := (0 <? z)%Z.
Definition positive_float (x : Q) : bool := Py.lt 0 x.

(** A [float] to run the questions with: whole numbers, and "nan". *)
Definition sample_binary64 (s : string) : option Binary64.t :=
  if String.eqb s "nan" then Some S754_nan
  else option_map Binary64.of_int (sample_int s).

(** The lines a loop left and what it returned. *)
Definition left_and_result {A : Type} (o : outcome A) : list string * result A :=
  (snd (fst o), snd o).

(** The readings [get_readings] builds from the deflections it read, the one
    after reading number [i] first. *)
Fixpoint numbered (increment : Q) (i : Z) (depressions : list Q) : list reading :=
  match depressions with
  | [] => []
  | d :: ds =>
      Reading (i + 1) (increment * inject_Z (i + 1)) d :: numbered increment (i + 1) ds
  end.

(** [w'] is [w] after console traffic only: the same files, more output,
    less input. *)
Definition console_step (w w' : world) : Prop :=
  files w' = files w
  /\ (exists out, stdout w' = stdout w ++ out)
  /\ (exists used, stdin w = used ++ stdin w').

(** [m] only uses the console, returns values in [P] and raises only
    exceptions in [allowed]. *)
Definition console_only {A : Type} (allowed : exn -> Prop) (P : A -> Prop)
    (m : IO A) : Prop :=
  forall w,
    console_step w (fst (m w))
    /\ match snd (m w) with
       | Ok a => P a
       | Raise e => allowed e
       end.

Definition no_exception : exn -> Prop := fun _ => False.
Definition end_of_input : exn -> Prop := fun e => e = EOFError.

(** The modulus the table shows for a reading. *)
Definition shown_modulus (bending_type : Z) (L B W : Q) (r : reading) : Q :=
  if included r then modulus_formula bending_type L B W r else 0.

(** [w'] is [w] after console traffic and at most one report written: for
    some material of the database and a bending type 1 or 2, the file of
    that name is created or replaced, every other file is as it was. *)
Definition report_step (w w' : world) : Prop :=
  (exists out, stdout w' = stdout w ++ out)
  /\ (exists used, stdin w = used ++ stdin w')
  /\ (files w' = files w
      \/ exists key m bt content,
           In (key, m) MATERIAL_DATABASE /\ (bt = 1 \/ bt = 2)%Z
           /\ files w' = <[report_filename key bt := content]> (files w)).

(** The program ended normally or by the end of the input. *)
Definition ended {A : Type} (r : result A) : Prop :=
  (exists a, r = Ok a) \/ r = Raise EOFError.

(** What [get_readings] returns: a positive increment and at least one
    reading, numbered from 1, with the multiples of the increment as
    weights. *)
Definition well_formed_readings (c : list reading * Q) : Prop :=
  0 < snd c /\ fst c <> [] /\ exists ds, fst c = numbered (snd c) 0 ds.

(** [m] prints the chunks [out] and returns [a], whatever the world: it
    reads no input and touches no file. *)
Definition emits {A : Type} (out : list string) (a : A) (m : IO A) : Prop :=
  forall w, m w = (World (stdin w) (stdout w ++ out) (files w), Ok a).

(** The rows of the table of readings, as printed. *)
Definition table_rows (format : Q -> string -> string) (bending_type : Z)
    (L B W : Q) (readings : list reading) : list string :=
  map (fun r => reading_row format r (shown_modulus bending_type L B W r) +:+ nl)
      readings.

(** [m] run in any world changes it by [step] and returns or meets the end
    of the input. *)
Definition runs_by {A : Type} (step : world -> world -> Prop) (m : IO A) : Prop :=
  forall w, step w (fst (m w)) /\ ended (snd (m w)).

(** The line of the menu for entry [km], numbered [n]. *)
Definition menu_line (format : Q -> string -> string) (n : Z)
    (km : string * material) : string :=
  (str_int n +:+ ". " +:+ ljust 20 (name (snd km))
   +:+ " - Young's Modulus: "
   +:+ str_number format (youngs_modulus (snd km)) +:+ " GPa") +:+ nl.

(** The lines of the menu for the entries [its], numbered from [n]. *)
Fixpoint menu_lines (format : Q -> string -> string) (n : Z)
    (its : list (string * material)) : list string :=
  match its with
  | [] => []
  | km :: its' => menu_line format n km :: menu_lines format (n + 1) its'
  end.

(** * Properties *)

(** ** Arithmetic of the model *)

Section Arithmetic.

Lemma truediv_ok x y : ~ y == 0 -> truediv x y = Ok (x / y).
Proof.
  intros H. unfold truediv. destruct (Qeq_bool y 0) eqn:E; [|reflexivity].
  apply Qeq_bool_eq in E. contradiction.
Qed.

Lemma truediv_zero x y : y == 0 -> truediv x y = Raise ZeroDivisionError.
Proof. intros H. unfold truediv. now rewrite (Qeq_eq_bool _ _ H). Qed.

Lemma truediv_cases x y :
  truediv x y = Ok (x / y) \/ truediv x y = Raise ZeroDivisionError.
Proof. unfold truediv. destruct (Qeq_bool y 0); auto. Qed.

Lemma ne_true x y : Py.ne x y = true <-> ~ x == y.
Proof.
  unfold Py.ne. rewrite negb_true_iff. split.
  - intros E H. apply Qeq_eq_bool in H. congruence.
  - intros H. destruct (Qeq_bool x y) eqn:E; [|reflexivity].
    apply Qeq_bool_eq in E. contradiction.
Qed.

Lemma ne_false x y : Py.ne x y = false <-> x == y.
Proof.
  unfold Py.ne. rewrite negb_false_iff. split.
  - apply Qeq_bool_eq.
  - apply Qeq_eq_bool.
Qed.

Lemma lt_true x y : Py.lt x y = true <-> x < y.
Proof.
  unfold Py.lt. rewrite negb_true_iff. split.
  - intros E. apply Qnot_le_lt. intros H. apply Qle_bool_iff in H. congruence.
  - intros H. destruct (Qle_bool y x) eqn:E; [|reflexivity].
    apply Qle_bool_iff in E. apply Qle_not_lt in E. contradiction.
Qed.

(** The test [depression_m != 0] is a test on the deflection itself. *)
Lemma ne_div_100 d : Py.ne (d / 100) 0 = Py.ne d 0.
Proof.
  destruct (Py.ne d 0) eqn:E.
  - apply ne_true. apply ne_true in E. intros H. apply E.
    rewrite <- (Qmult_div_r d 100) by discriminate. rewrite H. reflexivity.
  - apply ne_false. apply ne_false in E. rewrite E. reflexivity.
Qed.

Lemma ne_opp d : Py.ne (- d) 0 = Py.ne d 0.
Proof.
  destruct (Py.ne d 0) eqn:E.
  - apply ne_true. apply ne_true in E. intros H. apply E. lra.
  - apply ne_false. apply ne_false in E. lra.
Qed.

Lemma Qabs_div_100_opp d : Qabs (- d / 100) = Qabs (d / 100).
Proof.
  destruct d as [n p]. unfold Qabs, Qdiv, Qmult, Qopp, Qinv. cbn.
  f_equal. lia.
Qed.

Lemma positive_nonzero x : 0 < x -> ~ x == 0.
Proof. intros H E. rewrite E in H. now apply Qlt_irrefl in H. Qed.

Lemma div_100_nonzero x : ~ x == 0 -> ~ x / 100 == 0.
Proof. intros H. apply ne_true. rewrite ne_div_100. now apply ne_true. Qed.

Lemma Qabs_nonzero x : ~ x == 0 -> ~ Qabs x == 0.
Proof.
  intros H E. apply H.
  destruct (Qlt_le_dec x 0) as [Hx|Hx].
  - rewrite Qabs_neg in E by lra. lra.
  - rewrite Qabs_pos in E by lra. exact E.
Qed.

Lemma Qmult_nonzero x y : ~ x == 0 -> ~ y == 0 -> ~ x * y == 0.
Proof. intros Hx Hy E. apply Qmult_integral in E. tauto. Qed.

Lemma inertia_nonzero B W :
  ~ B == 0 -> ~ W == 0 -> ~ B * W ^ 3 / 12 / 100000000 == 0.
Proof.
  intros HB HW. unfold Qdiv.
  repeat apply Qmult_nonzero; try discriminate; try assumption.
Qed.

(** The divisor of either formula is zero only for a degenerate rod or a
    zero deflection. *)
Lemma denominator_nonzero (k B W d : Q) :
  ~ k == 0 -> ~ B == 0 -> ~ W == 0 -> ~ d == 0 ->
  ~ k * (B * W ^ 3 / 12 / 100000000) * Qabs (d / 100) == 0.
Proof.
  intros Hk HB HW Hd. apply Qmult_nonzero; [apply Qmult_nonzero|]; try assumption.
  - now apply inertia_nonzero.
  - now apply Qabs_nonzero, div_100_nonzero.
Qed.

Lemma fold_left_Qplus l a : fold_left Qplus l a == a + fold_right Qplus 0 l.
Proof.
  revert a. induction l as [|x l IH]; intros a; cbn.
  - ring.
  - rewrite IH. ring.
Qed.

Lemma len_nonzero {A} (x : A) (l : list A) : ~ inject_Z (Py.len (x :: l)) == 0.
Proof. unfold Py.len, Qeq. cbn [length Qnum Qden inject_Z]. lia. Qed.



End Arithmetic.

Create HintDb nonzero.

#[local] Hint Resolve positive_nonzero div_100_nonzero Qabs_nonzero
  Qmult_nonzero inertia_nonzero denominator_nonzero : nonzero.

(** ** The modulus computations in exact arithmetic *)

Section Physics.

Lemma moment_of_inertia_ok B W :
  calculate_moment_of_inertia B W = Ok (B * W ^ 3 / 12).
Proof. reflexivity. Qed.

(** One round of each loop, with the divisions by constants carried out. *)
Lemma uniform_loop_cons L I r rs acc :
  uniform_loop L I (r :: rs) acc =
    if Py.ne (depression r / 100) 0 then
      w <- truediv (weight r / 1000 * 9.81) (L / 100) ;;
      Y <- truediv (5 * w * (L / 100) ^ 4)
                   (384 * (I / 100000000) * Qabs (depression r / 100)) ;;
      uniform_loop L I rs (acc ++ [Y / 1e9])
    else uniform_loop L I rs acc.
Proof. reflexivity. Qed.

Lemma nonuniform_loop_cons L I r rs acc :
  nonuniform_loop L I (r :: rs) acc =
    if Py.ne (depression r / 100) 0 then
      Y <- truediv (weight r / 1000 * 9.81 * (L / 100) ^ 3)
                   (48 * (I / 100000000) * Qabs (depression r / 100)) ;;
      nonuniform_loop L I rs (acc ++ [Y / 1e9])
    else nonuniform_loop L I rs acc.
Proof. reflexivity. Qed.

(** On a rod with nonzero dimensions the loops never raise and append the
    formula's value for each reading with a nonzero deflection. *)
Lemma uniform_loop_ok L B W rs acc :
  ~ L == 0 -> ~ B == 0 -> ~ W == 0 ->
  uniform_loop L (B * W ^ 3 / 12) rs acc =
    Ok (acc ++ map (Spec.uniform_of L B W) (List.filter included rs)).
Proof.
  intros HL HB HW. revert acc.
  induction rs as [|r rs IH]; intros acc.
  - cbn. now rewrite app_nil_r.
  - rewrite uniform_loop_cons, ne_div_100. cbn [List.filter]. unfold included at 1.
    destruct (Py.ne (depression r) 0) eqn:E; [|apply IH].
    apply ne_true in E.
    rewrite truediv_ok by auto with nonzero.
    cbn [Py.bind].
    rewrite truediv_ok by (apply denominator_nonzero; [discriminate|assumption..]).
    cbn [Py.bind]. rewrite IH, <- app_assoc. reflexivity.
Qed.

Lemma nonuniform_loop_ok L B W rs acc :
  ~ B == 0 -> ~ W == 0 ->
  nonuniform_loop L (B * W ^ 3 / 12) rs acc =
    Ok (acc ++ map (Spec.point_load_of L B W) (List.filter included rs)).
Proof.
  intros HB HW. revert acc.
  induction rs as [|r rs IH]; intros acc.
  - cbn. now rewrite app_nil_r.
  - rewrite nonuniform_loop_cons, ne_div_100. cbn [List.filter]. unfold included at 1.
    destruct (Py.ne (depression r) 0) eqn:E; [|apply IH].
    apply ne_true in E.
    rewrite truediv_ok by (apply denominator_nonzero; [discriminate|assumption..]).
    cbn [Py.bind]. rewrite IH, <- app_assoc. reflexivity.
Qed.

Lemma average_mean ys : exists y, average ys = Ok y /\ y == Spec.mean ys.
Proof.
  destruct ys as [|y ys].
  - exists 0. split; reflexivity.
  - eexists. split.
    + unfold average. apply truediv_ok, len_nonzero.
    + unfold Spec.mean, Py.sum, Py.len. rewrite fold_left_Qplus.
      apply Qdiv_comp; [ring|reflexivity].
Qed.

Lemma uniform_mean L B W rs :
  ~ L == 0 -> ~ B == 0 -> ~ W == 0 ->
  exists y, calculate_youngs_modulus_uniform L B W rs = Ok y /\
    y == Spec.mean (map (Spec.uniform_of L B W) (List.filter included rs)).
Proof.
  intros HL HB HW. unfold calculate_youngs_modulus_uniform.
  rewrite moment_of_inertia_ok. cbn [Py.bind].
  rewrite uniform_loop_ok by assumption. cbn [Py.bind app].
  apply average_mean.
Qed.

Lemma nonuniform_mean L B W rs :
  ~ B == 0 -> ~ W == 0 ->
  exists y, calculate_youngs_modulus_nonuniform L B W rs = Ok y /\
    y == Spec.mean (map (Spec.point_load_of L B W) (List.filter included rs)).
Proof.
  intros HB HW. unfold calculate_youngs_modulus_nonuniform.
  rewrite moment_of_inertia_ok. cbn [Py.bind].
  rewrite nonuniform_loop_ok by assumption. cbn [Py.bind app].
  apply average_mean.
Qed.


(** The loops see a deflection only through its absolute value. *)
Lemma uniform_loop_sign L I rs rs' acc :
  Forall2 same_up_to_sign rs rs' ->
  uniform_loop L I rs' acc = uniform_loop L I rs acc.
Proof.
  intros H. revert acc.
  induction H as [|r r' rs rs' [-> | ->] _ IH]; intros acc; [reflexivity| |].
  - rewrite !uniform_loop_cons.
    destruct (Py.ne _ _); [|apply IH].
    destruct (truediv _ (L / 100)) as [w|e]; [|reflexivity]. cbn [Py.bind].
    destruct (truediv _ _) as [Y|e]; [|reflexivity]. cbn [Py.bind].
    apply IH.
  - rewrite !uniform_loop_cons. cbn [negate_deflection depression weight].
    rewrite Qabs_div_100_opp, !ne_div_100, ne_opp.
    destruct (Py.ne (depression r) 0); [|apply IH].
    destruct (truediv _ (L / 100)) as [w|e]; [|reflexivity]. cbn [Py.bind].
    destruct (truediv _ _) as [Y|e]; [|reflexivity]. cbn [Py.bind].
    apply IH.
Qed.

Lemma nonuniform_loop_sign L I rs rs' acc :
  Forall2 same_up_to_sign rs rs' ->
  nonuniform_loop L I rs' acc = nonuniform_loop L I rs acc.
Proof.
  intros H. revert acc.
  induction H as [|r r' rs rs' [-> | ->] _ IH]; intros acc; [reflexivity| |].
  - rewrite !nonuniform_loop_cons.
    destruct (Py.ne _ _); [|apply IH].
    destruct (truediv _ _) as [Y|e]; [|reflexivity]. cbn [Py.bind].
    apply IH.
  - rewrite !nonuniform_loop_cons. cbn [negate_deflection depression weight].
    rewrite Qabs_div_100_opp, !ne_div_100, ne_opp.
    destruct (Py.ne (depression r) 0); [|apply IH].
    destruct (truediv _ _) as [Y|e]; [|reflexivity]. cbn [Py.bind].
    apply IH.
Qed.

Lemma negated_same_up_to_sign rs :
  Forall2 same_up_to_sign rs (map negate_deflection rs).
Proof. induction rs; constructor; [now right|assumption]. Qed.

Lemma individual_modulus_negate L I bt r :
  individual_modulus L I bt (negate_deflection r) = individual_modulus L I bt r.
Proof.
  unfold individual_modulus. cbn [negate_deflection depression weight].
  change (truediv (weight r) 1000) with (Ok (weight r / 1000)).
  change (truediv (- depression r) 100) with (Ok (- depression r / 100)).
  change (truediv (depression r) 100) with (Ok (depression r / 100)).
  cbn [Py.bind]. now rewrite Qabs_div_100_opp, !ne_div_100, ne_opp.
Qed.

Lemma individual_modulus_cases L I bt r :
  (exists y, individual_modulus L I bt r = Ok y)
  \/ individual_modulus L I bt r = Raise ZeroDivisionError.
Proof.
  unfold individual_modulus.
  change (truediv (weight r) 1000) with (Ok (weight r / 1000)).
  change (truediv (depression r) 100) with (Ok (depression r / 100)).
  change (truediv L 100) with (Ok (L / 100)).
  change (truediv I 100000000) with (Ok (I / 100000000)).
  cbn [Py.bind].
  destruct (Py.ne _ _); [|eauto].
  destruct (bt =? 1)%Z.
  - destruct (truediv_cases (weight r / 1000 * 9.81) (L / 100)) as [-> | ->];
      cbn [Py.bind]; [|auto].
    match goal with |- context [truediv ?a ?b] =>
      destruct (truediv_cases a b) as [-> | ->] end; cbn [Py.bind]; eauto.
  - match goal with |- context [truediv ?a ?b] =>
      destruct (truediv_cases a b) as [-> | ->] end; cbn [Py.bind]; eauto.
Qed.

End Physics.

(** ** The modulus computations in binary64 *)

Section Binary64Facts.

Import Binary64.

Variable pow : t -> Z -> result t.
Variable sum : list t -> t.

(** A division by a nonzero constant does not raise. *)
Lemma truediv_constant x z :
  eqb (of_int z) (of_int 0) = false -> truediv x (of_int z) = Ok (div x (of_int z)).
Proof. intros H. unfold truediv. now rewrite H. Qed.

Lemma eqb_zero x : eqb x (of_int 0) = true -> exists s, x = S754_zero s.
Proof.
  destruct x as [s|s| |s m e]; try (now exists s); try discriminate.
  - destruct s; discriminate.
  - destruct s; discriminate.
Qed.

Lemma zero_not_included r :
  eqb (depression r) (of_int 0) = true -> included r = false.
Proof.
  intros H. apply eqb_zero in H as [s H]. unfold included. rewrite H.
  now destruct s.
Qed.

Lemma included_divisor r :
  included r = true -> eqb (abs (div (depression r) (of_int 100))) (of_int 0) = false.
Proof.
  unfold included, ne.
  destruct (div (depression r) (of_int 100)) as [[]|[]| |[] m e];
    (reflexivity || discriminate).
Qed.

(** One round of each loop, with the divisions by constants carried out. *)
Lemma uniform_loop_step L I r rs acc :
  uniform_loop pow L I (r :: rs) acc =
    if included r then
      Y_GPa <- uniform_value pow L I r ;;
      uniform_loop pow L I rs (acc ++ [Y_GPa])
    else uniform_loop pow L I rs acc.
Proof.
  cbn [uniform_loop]. rewrite !truediv_constant by reflexivity. cbn [Py.bind].
  unfold included, uniform_value. cbv zeta.
  destruct (ne _ _); [|reflexivity].
  destruct (truediv _ (div L _)) as [w|e]; [|reflexivity]. cbn [Py.bind].
  destruct (pow _ _) as [p|e]; [|reflexivity]. cbn [Py.bind].
  destruct (truediv _ _) as [Y|e]; [|reflexivity]. cbn [Py.bind].
  rewrite truediv_constant by reflexivity. reflexivity.
Qed.

Lemma nonuniform_loop_step L I r rs acc :
  nonuniform_loop pow L I (r :: rs) acc =
    if included r then
      Y_GPa <- point_load_value pow L I r ;;
      nonuniform_loop pow L I rs (acc ++ [Y_GPa])
    else nonuniform_loop pow L I rs acc.
Proof.
  cbn [nonuniform_loop]. rewrite !truediv_constant by reflexivity. cbn [Py.bind].
  unfold included, point_load_value. cbv zeta.
  destruct (ne _ _); [|reflexivity].
  destruct (pow _ _) as [p|e]; [|reflexivity]. cbn [Py.bind].
  destruct (truediv _ _) as [Y|e]; [|reflexivity]. cbn [Py.bind].
  rewrite truediv_constant by reflexivity. reflexivity.
Qed.

(** The loops append the values of the readings that count, in order, and
    stop at the first that raises. *)
Lemma uniform_loop_traverse L I rs acc :
  uniform_loop pow L I rs acc =
    (ys <- traverse (uniform_value pow L I) (List.filter included rs) ;;
     Ok (acc ++ ys)).
Proof.
  revert acc. induction rs as [|r rs IH]; intros acc.
  - cbn. now rewrite app_nil_r.
  - rewrite uniform_loop_step. cbn [List.filter].
    destruct (included r); [|apply IH]. cbn [traverse].
    destruct (uniform_value pow L I r) as [y|e]; [|reflexivity]. cbn [Py.bind].
    rewrite IH. destruct (traverse _ _) as [ys|e]; [|reflexivity]. cbn [Py.bind].
    now rewrite <- app_assoc.
Qed.

Lemma nonuniform_loop_traverse L I rs acc :
  nonuniform_loop pow L I rs acc =
    (ys <- traverse (point_load_value pow L I) (List.filter included rs) ;;
     Ok (acc ++ ys)).
Proof.
  revert acc. induction rs as [|r rs IH]; intros acc.
  - cbn. now rewrite app_nil_r.
  - rewrite nonuniform_loop_step. cbn [List.filter].
    destruct (included r); [|apply IH]. cbn [traverse].
    destruct (point_load_value pow L I r) as [y|e]; [|reflexivity]. cbn [Py.bind].
    rewrite IH. destruct (traverse _ _) as [ys|e]; [|reflexivity]. cbn [Py.bind].
    now rewrite <- app_assoc.
Qed.

Lemma filter_included_idempotent (rs : list reading) :
  List.filter included (List.filter included rs) = List.filter included rs.
Proof.
  induction rs as [|r rs IH]; [reflexivity|]. cbn [List.filter].
  destruct (included r) eqn:E; [|exact IH]. cbn [List.filter]. now rewrite E, IH.
Qed.

Lemma moment_of_inertia_value B W :
  calculate_moment_of_inertia pow B W =
    (p <- pow W 3 ;; Ok (div (mul B p) (of_int 12))).
Proof.
  unfold calculate_moment_of_inertia. destruct (pow W 3) as [p|e]; [|reflexivity].
  cbn [Py.bind]. now rewrite truediv_constant.
Qed.

(** Each function as the mean of the values of the readings that count. *)
Lemma uniform_as_mean L B W rs :
  calculate_youngs_modulus_uniform pow sum L B W rs =
    (p <- pow W 3 ;;
     ys <- traverse (uniform_value pow L (div (mul B p) (of_int 12)))
             (List.filter included rs) ;;
     average sum ys).
Proof.
  unfold calculate_youngs_modulus_uniform. rewrite moment_of_inertia_value.
  destruct (pow W 3) as [p|e]; [|reflexivity]. cbn [Py.bind].
  rewrite uniform_loop_traverse.
  destruct (traverse _ _) as [ys|e]; reflexivity.
Qed.

Lemma nonuniform_as_mean L B W rs :
  calculate_youngs_modulus_nonuniform pow sum L B W rs =
    (p <- pow W 3 ;;
     ys <- traverse (point_load_value pow L (div (mul B p) (of_int 12)))
             (List.filter included rs) ;;
     average sum ys).
Proof.
  unfold calculate_youngs_modulus_nonuniform. rewrite moment_of_inertia_value.
  destruct (pow W 3) as [p|e]; [|reflexivity]. cbn [Py.bind].
  rewrite nonuniform_loop_traverse.
  destruct (traverse _ _) as [ys|e]; reflexivity.
Qed.

Lemma filter_all_zero_deflections (rs : list reading) :
  Forall (fun r => eqb (depression r) (of_int 0) = true) rs ->
  List.filter included rs = [].
Proof.
  induction 1 as [|r rs Hr _ IH]; [reflexivity|].
  cbn [List.filter]. now rewrite (zero_not_included r Hr).
Qed.

End Binary64Facts.

Section Binary64Claims.

Variable pow : Binary64.t -> Z -> result Binary64.t.
Variable sum : list Binary64.t -> Binary64.t.

(** C2 (as amended). In both computations a reading is skipped exactly
    when its deflection in metres, [depression / 100] in binary64, is zero.
    A reading whose deflection is 0 is skipped: it adds nothing to the
    average and is not divided by, the divisor holds the absolute value of
    the deflection in metres only where that is not zero.  The result, a
    value or an exception, is the one computed from the other readings
    alone, whose values are taken in order.  The readings skipped are not
    exactly those with the deflection 0: a deflection that is not zero but
    too small for the division by 100 is skipped as well. *)
Theorem zero_deflection_readings_skipped
    (L B W : Binary64.t) (rs : list Binary64.reading) :
  let kept := List.filter Binary64.included rs in
  Binary64.calculate_youngs_modulus_uniform pow sum L B W rs =
    Binary64.calculate_youngs_modulus_uniform pow sum L B W kept
  /\ Binary64.calculate_youngs_modulus_nonuniform pow sum L B W rs =
    Binary64.calculate_youngs_modulus_nonuniform pow sum L B W kept
  /\ (forall I acc,
        Binary64.uniform_loop pow L I rs acc =
          (ys <- Binary64.traverse (Binary64.uniform_value pow L I) kept ;;
           Ok (acc ++ ys)))
  /\ (forall I acc,
        Binary64.nonuniform_loop pow L I rs acc =
          (ys <- Binary64.traverse (Binary64.point_load_value pow L I) kept ;;
           Ok (acc ++ ys)))
  /\ (forall r,
        Binary64.eqb (Binary64.depression r) (Binary64.of_int 0) = true ->
        Binary64.included r = false)
  /\ (forall r,
        Binary64.included r = true ->
        Binary64.eqb
          (Binary64.abs (Binary64.div (Binary64.depression r) (Binary64.of_int 100)))
          (Binary64.of_int 0) = false).
Proof.
  cbv zeta. repeat split.
  - now rewrite !(uniform_as_mean pow sum), filter_included_idempotent.
  - now rewrite !(nonuniform_as_mean pow sum), filter_included_idempotent.
  - intros I acc. apply uniform_loop_traverse.
  - intros I acc. apply nonuniform_loop_traverse.
  - apply zero_not_included.
  - apply included_divisor.
Qed.


(** C4 (as amended). When every deflection is zero, both computations
    return exactly 0 and raise nothing, provided the cube of the thickness
    can be computed; when that power raises, for a thickness too large, they
    raise what it raises, all deflections being zero. *)
Theorem all_zero_deflections_give_zero
    (L B W : Binary64.t) (rs : list Binary64.reading) :
  Forall (fun r => Binary64.eqb (Binary64.depression r) (Binary64.of_int 0) = true)
    rs ->
  Binary64.calculate_youngs_modulus_uniform pow sum L B W rs
  = (p <- pow W 3 ;; Ok (Binary64.of_int 0))
  /\ Binary64.calculate_youngs_modulus_nonuniform pow sum L B W rs
     = (p <- pow W 3 ;; Ok (Binary64.of_int 0)).
Proof.
  intros H. rewrite uniform_as_mean, nonuniform_as_mean.
  rewrite (filter_all_zero_deflections rs H).
  destruct (pow W 3); split; reflexivity.
Qed.


End Binary64Claims.

(** The literals of the program and of the examples, bit for bit: 9.81, 1e9,
    0.5, 0.1, 1e-323 and 1e200. *)
Example binary64_literals :
  Binary64.decimal 981 2 = S754_finite false 5522539043063071 (-49)
  /\ Binary64.of_int 1000000000 = S754_finite false 8388608000000000 (-23)
  /\ Binary64.decimal 5 1 = S754_finite false 4503599627370496 (-53)
  /\ Binary64.decimal 1 1 = S754_finite false 7205759403792794 (-56)
  /\ Binary64.decimal 1 323 = S754_finite false 2 (-1074)
  /\ Binary64.of_int (10 ^ 200) = S754_finite false 5883593420661338 612.
Proof. vm_compute. repeat split. Qed.

(** The example of the specification: the reading with deflection 0 does not
    change the point-load result of the reading before it,
    9.810000000000002 GPa. *)
Lemma zero_deflection_readings_skipped_witness :
  Binary64.calculate_youngs_modulus_nonuniform Binary64.power Binary64.sum_left
    (Binary64.of_int 100) (Binary64.of_int 2) (Binary64.decimal 5 1)
    [Binary64.Reading 1 (Binary64.of_int 10) (Binary64.decimal 1 1);
     Binary64.Reading 2 (Binary64.of_int 20) (Binary64.of_int 0)]
  = Binary64.calculate_youngs_modulus_nonuniform Binary64.power Binary64.sum_left
      (Binary64.of_int 100) (Binary64.of_int 2) (Binary64.decimal 5 1)
      [Binary64.Reading 1 (Binary64.of_int 10) (Binary64.decimal 1 1)]
  /\ Binary64.calculate_youngs_modulus_nonuniform Binary64.power Binary64.sum_left
       (Binary64.of_int 100) (Binary64.of_int 2) (Binary64.decimal 5 1)
       [Binary64.Reading 1 (Binary64.of_int 10) (Binary64.decimal 1 1);
        Binary64.Reading 2 (Binary64.of_int 20) (Binary64.of_int 0)]
     = Ok (S754_finite false 5522539043063072 (-49)).
Proof.
  destruct (zero_deflection_readings_skipped Binary64.power Binary64.sum_left
              (Binary64.of_int 100) (Binary64.of_int 2) (Binary64.decimal 5 1)
              [Binary64.Reading 1 (Binary64.of_int 10) (Binary64.decimal 1 1);
               Binary64.Reading 2 (Binary64.of_int 20) (Binary64.of_int 0)])
    as (_ & H & _).
  split; rewrite H; vm_compute; reflexivity.
Defined.

(** C2 as it was stated fails for a deflection that is not zero but too small
    to survive the conversion to metres: 1e-323 cm is not 0, the reading is
    skipped all the same, and the result is 0 instead of the modulus of that
    reading. *)
Lemma tiny_deflection_is_skipped :
  let r := Binary64.Reading 1 (Binary64.of_int 10) (Binary64.decimal 1 323) in
  Binary64.eqb (Binary64.depression r) (Binary64.of_int 0) = false
  /\ Binary64.included r = false
  /\ Binary64.calculate_youngs_modulus_uniform Binary64.power Binary64.sum_left
       (Binary64.of_int 100) (Binary64.of_int 2) (Binary64.decimal 5 1) [r]
     = Ok (Binary64.of_int 0)
  /\ Binary64.calculate_youngs_modulus_nonuniform Binary64.power Binary64.sum_left
       (Binary64.of_int 100) (Binary64.of_int 2) (Binary64.decimal 5 1) [r]
     = Ok (Binary64.of_int 0).
Proof. vm_compute. repeat split. Qed.

(** A reading that counts can still end in a division by zero: with the
    deflection 1e-318 cm the divisor 384 * I_m4 * |deflection_m| (48 for the
    point load) underflows to 0. *)
Example underflowing_divisor_raises :
  Binary64.calculate_youngs_modulus_uniform Binary64.power Binary64.sum_left
    (Binary64.of_int 100) (Binary64.of_int 2) (Binary64.decimal 5 1)
    [Binary64.Reading 1 (Binary64.of_int 50) (Binary64.decimal 1 318)]
  = Raise ZeroDivisionError
  /\ Binary64.calculate_youngs_modulus_nonuniform Binary64.power Binary64.sum_left
       (Binary64.of_int 100) (Binary64.of_int 2) (Binary64.decimal 5 1)
       [Binary64.Reading 1 (Binary64.of_int 50) (Binary64.decimal 1 318)]
     = Raise ZeroDivisionError.
Proof. vm_compute. split; reflexivity. Qed.



(** Two readings with the deflections 0 and -0 on the rod of the example. *)
Lemma all_zero_deflections_give_zero_witness :
  Binary64.calculate_youngs_modulus_uniform Binary64.power Binary64.sum_left
    (Binary64.of_int 100) (Binary64.of_int 2) (Binary64.decimal 5 1)
    [Binary64.Reading 1 (Binary64.of_int 10) (S754_zero false);
     Binary64.Reading 2 (Binary64.of_int 20) (S754_zero true)]
  = Ok (Binary64.of_int 0)
  /\ Binary64.calculate_youngs_modulus_nonuniform Binary64.power Binary64.sum_left
       (Binary64.of_int 100) (Binary64.of_int 2) (Binary64.decimal 5 1)
       [Binary64.Reading 1 (Binary64.of_int 10) (S754_zero false);
        Binary64.Reading 2 (Binary64.of_int 20) (S754_zero true)]
     = Ok (Binary64.of_int 0).
Proof.
  apply (all_zero_deflections_give_zero Binary64.power Binary64.sum_left).
  repeat constructor.
Defined.

(** C4 as it was stated fails on a rod 1e200 cm thick, a thickness the
    program accepts: the cube overflows and both computations raise
    [OverflowError], with every deflection zero. *)
Lemma all_zero_deflections_can_overflow :
  Binary64.calculate_youngs_modulus_uniform Binary64.power Binary64.sum_left
    (Binary64.of_int 100) (Binary64.of_int 2) (Binary64.of_int (10 ^ 200))
    [Binary64.Reading 1 (Binary64.of_int 50) (Binary64.of_int 0)]
  = Raise OverflowError
  /\ Binary64.calculate_youngs_modulus_nonuniform Binary64.power Binary64.sum_left
       (Binary64.of_int 100) (Binary64.of_int 2) (Binary64.of_int (10 ^ 200))
       [Binary64.Reading 1 (Binary64.of_int 50) (Binary64.of_int 0)]
     = Raise OverflowError.
Proof. vm_compute. split; reflexivity. Qed.


(** ** Running console actions *)

Section ConsoleFacts.

Lemma run_write {B} s (k : unit -> IO B) w :
  iobind (write s) k w = k tt (World (stdin w) (stdout w ++ [s]) (files w)).
Proof. reflexivity. Qed.

Lemma run_print {B} s (k : unit -> IO B) w :
  iobind (print s) k w = k tt (World (stdin w) (stdout w ++ [s +:+ nl]) (files w)).
Proof. reflexivity. Qed.

Lemma run_print_last s w :
  print s w = (World (stdin w) (stdout w ++ [s +:+ nl]) (files w), Ok tt).
Proof. reflexivity. Qed.

Lemma run_input {B} (k : string -> IO B) line rest out fs :
  iobind input k (World (line :: rest) out fs) = k line (World rest out fs).
Proof. reflexivity. Qed.

Lemma run_write_file {B} filename content (k : unit -> IO B) w :
  iobind (write_file filename content) k w =
    k tt (World (stdin w) (stdout w) (<[filename := content]> (files w))).
Proof. reflexivity. Qed.

Lemma run_ret {A B} (a : A) (k : A -> IO B) w : iobind (ret a) k w = k a w.
Proof. reflexivity. Qed.

Lemma run_lift_ok {A B} (a : A) (k : A -> IO B) w :
  iobind (lift (Ok a)) k w = k a w.
Proof. reflexivity. Qed.

Lemma run_assoc {A B C} (m : IO A) (k : A -> IO B) (k' : B -> IO C) w :
  iobind (iobind m k) k' w = iobind m (fun a => iobind (k a) k') w.
Proof. unfold iobind. destruct (m w) as [w' [a|e]]; reflexivity. Qed.

Lemma iobind_always_raises {A B} e (m : IO A) (k : A -> IO B) :
  returns_or_raises e m -> (forall a, always_raises e (k a)) ->
  always_raises e (iobind m k).
Proof.
  intros Hm Hk w. unfold iobind. specialize (Hm w).
  destruct (m w) as [w' [a|e']]; cbn [snd] in *.
  - apply Hk.
  - destruct Hm as [[a Ha]|Hm]; [discriminate|congruence].
Qed.

Lemma iobind_raises_first {A B} e (m : IO A) (k : A -> IO B) :
  always_raises e m -> always_raises e (iobind m k).
Proof.
  intros Hm w. unfold iobind. specialize (Hm w).
  destruct (m w) as [w' [a|e']]; cbn [snd] in *; [discriminate|congruence].
Qed.

Lemma iobind_returns_or_raises {A B} e (m : IO A) (k : A -> IO B) :
  returns_or_raises e m -> (forall a, returns_or_raises e (k a)) ->
  returns_or_raises e (iobind m k).
Proof.
  intros Hm Hk w. unfold iobind. specialize (Hm w).
  destruct (m w) as [w' [a|e']]; cbn [snd] in *.
  - apply Hk.
  - destruct Hm as [[a Ha]|Hm]; [discriminate|right; congruence].
Qed.

Lemma print_returns e s : returns_or_raises e (print s).
Proof. intros w. left. now exists tt. Qed.

Lemma ret_returns {A} e (a : A) : returns_or_raises e (ret a).
Proof. intros w. left. now exists a. Qed.

Lemma lift_returns_or_raises {A} e (r : result A) :
  (exists a, r = Ok a) \/ r = Raise e -> returns_or_raises e (lift r).
Proof. intros H w. exact H. Qed.

End ConsoleFacts.

(** ** The report on the console *)

Section AnalysisFacts.

(** With a zero reference the analysis block divides by it. *)
Lemma display_analysis_zero material calculated w :
  value (youngs_modulus material) == 0 ->
  display_analysis material calculated w =
    (World (stdin w) (stdout w ++ [(nl +:+ "ANALYSIS:") +:+ nl]) (files w),
     Raise ZeroDivisionError).
Proof.
  intros H. unfold display_analysis.
  rewrite run_print. unfold iobind, lift. now rewrite (truediv_zero _ _ H).
Qed.

Lemma display_analysis_ok material calculated w :
  ~ value (youngs_modulus material) == 0 ->
  display_analysis material calculated w =
    (World (stdin w)
       (stdout w ++ ((nl +:+ "ANALYSIS:") +:+ nl) ::
          (if Py.lt (Qabs (calculated - value (youngs_modulus material))
                      / value (youngs_modulus material)) 0.2
           then consistent_verdict
           else differs_verdict))
       (files w), Ok tt).
Proof.
  intros H. unfold display_analysis.
  rewrite run_print. unfold iobind at 1. unfold lift.
  rewrite (truediv_ok _ _ H).
  destruct (Py.lt _ _).
  - rewrite run_print_last. cbn [stdin stdout files].
    now rewrite <- app_assoc.
  - rewrite !run_print, run_print_last. cbn [stdin stdout files].
    now rewrite <- !app_assoc.
Qed.

(** C5. For a nonzero reference the verdict is "consistent" exactly when
    |calculated - reference| / reference < 0.20, and "differs significantly",
    with its note, exactly when it is not: the boundary is strict. *)
Theorem verdict_boundary_is_strict material calculated w :
  let reference := value (youngs_modulus material) in
  ~ reference == 0 ->
  exists verdict,
    display_analysis material calculated w =
      (World (stdin w) (stdout w ++ ((nl +:+ "ANALYSIS:") +:+ nl) :: verdict)
         (files w), Ok tt)
    /\ (Qabs (calculated - reference) / reference < 0.2 <->
        verdict = consistent_verdict)
    /\ (~ Qabs (calculated - reference) / reference < 0.2 <->
        verdict = differs_verdict).
Proof.
  intros reference H. eexists. split; [apply display_analysis_ok, H|].
  fold reference. destruct (Py.lt _ _) eqn:E.
  - apply lt_true in E. split; split; try tauto; try discriminate.
  - assert (~ Qabs (calculated - reference) / reference < 0.2) as N.
    { intros N. apply lt_true in N. congruence. }
    split; split; try tauto; try discriminate.
Qed.

End AnalysisFacts.

Section ReportFacts.

Variable format : Q -> string -> string.

Lemma display_readings_returns_or_raises L I bt rs :
  returns_or_raises ZeroDivisionError (display_readings format L I bt rs).
Proof.
  induction rs as [|r rs IH]; cbn [display_readings].
  - apply ret_returns.
  - apply iobind_returns_or_raises.
    + apply lift_returns_or_raises, individual_modulus_cases.
    + intros y. apply iobind_returns_or_raises; [apply print_returns|].
      intros _. exact IH.
Qed.

(** With a zero reference the percentage block is skipped. *)
Lemma display_percentage_difference_zero material calculated w :
  value (youngs_modulus material) == 0 ->
  display_percentage_difference format material calculated w = (w, Ok tt).
Proof.
  intros H. unfold display_percentage_difference.
  apply ne_false in H. now rewrite H.
Qed.

(** C1. The claim is that rendering never divides by a zero reference
    modulus.  The percentage block is guarded as claimed, the analysis block
    is not: for a material whose reference modulus is 0, [display_results]
    prints the report up to the heading of the analysis and then raises
    [ZeroDivisionError]. *)
Theorem zero_reference_raises key material L B W bt rs calculated w :
  value (youngs_modulus material) == 0 ->
  display_percentage_difference format material calculated w = (w, Ok tt)
  /\ snd (display_analysis material calculated w) = Raise ZeroDivisionError
  /\ snd (display_results format key material L B W bt rs calculated w)
     = Raise ZeroDivisionError.
Proof.
  intros H. split; [|split].
  - now apply display_percentage_difference_zero.
  - now rewrite display_analysis_zero.
  - revert w.
    change (always_raises ZeroDivisionError
              (display_results format key material L B W bt rs calculated)).
    unfold display_results.
    repeat (apply iobind_always_raises; [apply print_returns|intros _]).
    apply iobind_always_raises.
    { apply lift_returns_or_raises. left. eexists. apply moment_of_inertia_ok. }
    intros I.
    repeat (apply iobind_always_raises; [apply print_returns|intros _]).
    apply iobind_always_raises; [apply display_readings_returns_or_raises|intros _].
    repeat (apply iobind_always_raises; [apply print_returns|intros _]).
    apply iobind_always_raises.
    { intros w. left. exists tt. now rewrite display_percentage_difference_zero. }
    intros _.
    repeat (apply iobind_always_raises; [apply print_returns|intros _]).
    apply iobind_raises_first. intros w. now rewrite display_analysis_zero.
Qed.

(** C8. Negating deflections, all of them or some, changes the result of
    neither computation, nor the modulus shown for a reading; the reading
    taken from the console keeps the deflection as entered, and the row of
    the table shows it as it is. *)
Theorem deflection_sign_is_ignored (L B W : Q) (rs : list reading) :
  calculate_youngs_modulus_uniform L B W (map negate_deflection rs)
    = calculate_youngs_modulus_uniform L B W rs
  /\ calculate_youngs_modulus_nonuniform L B W (map negate_deflection rs)
    = calculate_youngs_modulus_nonuniform L B W rs
  /\ (forall rs', Forall2 same_up_to_sign rs rs' ->
        calculate_youngs_modulus_uniform L B W rs'
          = calculate_youngs_modulus_uniform L B W rs
        /\ calculate_youngs_modulus_nonuniform L B W rs'
          = calculate_youngs_modulus_nonuniform L B W rs)
  /\ (forall I bt r,
        individual_modulus L I bt (negate_deflection r) = individual_modulus L I bt r)
  /\ (forall r y,
        reading_row format (negate_deflection r) y =
          ljust 10 (str_int (reading_num r)) +:+ " "
          +:+ format (weight r) "<15.2f" +:+ " "
          +:+ format (- depression r) "<20.4f" +:+ " "
          +:+ format y "<20.2f")
  /\ (forall (float : string -> option Q) increment line lines i todo readings d,
        float line = Some d ->
        exists prompt,
          readings_loop float format increment (line :: lines) i (S todo) readings =
            after [prompt]
              (readings_loop float format increment lines (i + 1) todo
                 (readings ++ [Reading (i + 1) (increment * inject_Z (i + 1)) d]))).
Proof.
  assert (Hsign : forall rs', Forall2 same_up_to_sign rs rs' ->
            calculate_youngs_modulus_uniform L B W rs'
              = calculate_youngs_modulus_uniform L B W rs
            /\ calculate_youngs_modulus_nonuniform L B W rs'
              = calculate_youngs_modulus_nonuniform L B W rs).
  { intros rs' H. unfold calculate_youngs_modulus_uniform,
      calculate_youngs_modulus_nonuniform.
    rewrite moment_of_inertia_ok. cbn [Py.bind].
    now rewrite (uniform_loop_sign _ _ _ _ _ H), (nonuniform_loop_sign _ _ _ _ _ H). }
  destruct (Hsign _ (negated_same_up_to_sign rs)) as [Hu Hn].
  repeat split; try assumption; try (now apply Hsign).
  - apply individual_modulus_negate.
  - intros float increment line lines i todo readings d Hd.
    eexists. cbn [readings_loop]. rewrite Hd. reflexivity.
Qed.

End ReportFacts.

(** A series with one reading turned upwards gives the same moduli. *)
Lemma deflection_sign_is_ignored_witness :
  calculate_youngs_modulus_uniform 100 2 0.5 [Reading 1 50 0.1; Reading 2 100 (-0.2)]
    = calculate_youngs_modulus_uniform 100 2 0.5 [Reading 1 50 0.1; Reading 2 100 0.2]
  /\ calculate_youngs_modulus_nonuniform 100 2 0.5
       [Reading 1 50 0.1; Reading 2 100 (-0.2)]
    = calculate_youngs_modulus_nonuniform 100 2 0.5
        [Reading 1 50 0.1; Reading 2 100 0.2].
Proof.
  destruct (deflection_sign_is_ignored sample_format 100 2 0.5
              [Reading 1 50 0.1; Reading 2 100 0.2]) as (_ & _ & H & _).
  apply (H [Reading 1 50 0.1; Reading 2 100 (-0.2)]).
  constructor; [left; reflexivity|].
  constructor; [right; reflexivity|].
  constructor.
Defined.

(** A material with reference modulus 0 in the report of a sound
    measurement: the report is cut short by [ZeroDivisionError]. *)
Lemma zero_reference_raises_witness :
  snd (display_results sample_format "sample"
         (Material "Sample" (Int 0) (Float 1)) 100 2 0.5 1 [Reading 1 50 0.1]
         30.65625 (World [] [] ∅))
  = Raise ZeroDivisionError.
Proof.
  apply (zero_reference_raises sample_format "sample"
           (Material "Sample" (Int 0) (Float 1)) 100 2 0.5 1 [Reading 1 50 0.1]
           30.65625 (World [] [] ∅)).
  reflexivity.
Defined.

(** The boundary case of the specification: calculated 168 against the 210
    of iron is 20% exactly, and the verdict is "differs significantly". *)
Lemma verdict_at_the_boundary :
  display_analysis (Material "Iron" (Int 210) (Float 7.87)) 168 (World [] [] ∅) =
    (World [] (((nl +:+ "ANALYSIS:") +:+ nl) :: differs_verdict) ∅, Ok tt).
Proof.
  destruct (verdict_boundary_is_strict (Material "Iron" (Int 210) (Float 7.87))
              168 (World [] [] ∅)) as (verdict & E & _ & Hd); [discriminate|].
  rewrite E. cbn [stdin stdout files app].
  assert (verdict = differs_verdict) as ->; [|reflexivity].
  apply Hd. intros H. vm_compute in H. discriminate.
Defined.

(** ** The catalog *)

Section CatalogFacts.

Lemma material_choice_in_range i :
  (1 <= i <= 13)%Z ->
  exists key m,
    nth_error MATERIAL_DATABASE (Z.to_nat (i - 1)) = Some (key, m)
    /\ material_choice i = Some (Ok (key, m)).
Proof.
  intros Hi.
  assert (i = 1 \/ i = 2 \/ i = 3 \/ i = 4 \/ i = 5 \/ i = 6 \/ i = 7 \/ i = 8
          \/ i = 9 \/ i = 10 \/ i = 11 \/ i = 12 \/ i = 13)%Z as Hcases by lia.
  repeat (destruct Hcases as [-> | Hcases]); try subst i;
    (do 2 eexists; split; reflexivity).
Qed.

Lemma material_choice_out_of_range i :
  ~ (1 <= i <= 13)%Z -> material_choice i = None.
Proof.
  intros Hi. unfold material_choice.
  change (Py.len MATERIAL_DATABASE) with 13%Z.
  destruct (1 <=? i)%Z eqn:E1; [|reflexivity].
  destruct (i <=? 13)%Z eqn:E2; [|reflexivity].
  apply Z.leb_le in E1, E2. lia.
Qed.

(** C6. The catalog has 13 entries; a choice i in 1..13 returns the i-th
    entry in insertion order (1 returns iron, the first one), with its key;
    a choice outside 1..13, such as 14, returns no entry: it is turned down
    with the message "Please enter a number between 1 and 13" and the
    question is asked again. *)
Theorem catalog_lookup_by_index :
  length MATERIAL_DATABASE = 13%nat
  /\ (forall i, (1 <= i <= 13)%Z ->
        exists key m,
          nth_error MATERIAL_DATABASE (Z.to_nat (i - 1)) = Some (key, m)
          /\ material_choice i = Some (Ok (key, m)))
  /\ material_choice 1 = Some (Ok ("iron", Material "Iron" (Int 210) (Float 7.87)))
  /\ (forall i, ~ (1 <= i <= 13)%Z -> material_choice i = None)
  /\ material_choice 14 = None
  /\ (forall (int : string -> option Z) line lines i,
        int line = Some i -> ~ (1 <= i <= 13)%Z ->
        get_material_choice_loop int (line :: lines) =
          after ["Your choice: "; "Please enter a number between 1 and 13" +:+ nl]
                (get_material_choice_loop int lines)).
Proof.
  split; [reflexivity|].
  split; [apply material_choice_in_range|].
  split; [reflexivity|].
  split; [apply material_choice_out_of_range|].
  split; [reflexivity|].
  intros int line lines i Hline Hi. cbn [get_material_choice_loop].
  rewrite Hline, (material_choice_out_of_range i Hi). reflexivity.
Qed.

(** The choices 14 and 0 are turned down and the 13 that follows is taken. *)
Lemma catalog_lookup_by_index_witness :
  get_material_choice_loop sample_int ["14"; "0"; "13"] =
    (["Your choice: "; "Please enter a number between 1 and 13" +:+ nl;
      "Your choice: "; "Please enter a number between 1 and 13" +:+ nl;
      "Your choice: "], [],
     Ok ("acrylic", Material "Acrylic" (Float 3.2) (Float 1.18))).
Proof.
  destruct catalog_lookup_by_index as (_ & _ & _ & _ & _ & H).
  rewrite (H sample_int "14" ["0"; "13"] 14%Z) by (reflexivity || lia).
  rewrite (H sample_int "0" ["13"] 0%Z) by (reflexivity || lia).
  reflexivity.
Defined.

End CatalogFacts.

(** ** Strings *)

Section StringFacts.

Lemma string_app_assoc (a b c : string) : (a +:+ b) +:+ c = a +:+ (b +:+ c).
Proof.
  induction a as [|x a IH]; [reflexivity|].
  change (String x a +:+ b) with (String x (a +:+ b)).
  change (String x (a +:+ b) +:+ c) with (String x ((a +:+ b) +:+ c)).
  now rewrite IH.
Qed.

Lemma string_app_cons c (s t : string) : String c s +:+ t = String c (s +:+ t).
Proof. reflexivity. Qed.

Lemma string_app_empty (s : string) : "" +:+ s = s.
Proof. reflexivity. Qed.

Lemma string_app_empty_r (s : string) : s +:+ "" = s.
Proof.
  induction s as [|c s IH]; [reflexivity|].
  rewrite string_app_cons. now rewrite IH.
Qed.

End StringFacts.

(** ** The answer to the save question *)

Section AnswerFacts.

Lemma lstrip_whitespace c s : In c whitespace -> lstrip (c +:+ s) = lstrip s.
Proof.
  intros H. cbv [whitespace map] in H.
  repeat (destruct H as [<- | H]; [reflexivity|]). destruct H.
Qed.

Lemma lstrip_all_space l s : all_space l -> lstrip (l +:+ s) = lstrip s.
Proof.
  induction 1 as [|c l Hc _ IH]; [reflexivity|].
  now rewrite string_app_assoc, lstrip_whitespace.
Qed.

Lemma code_ascii c n : code c = n -> c = ascii_of_nat n.
Proof. intros <-. unfold code. now rewrite ascii_nat_embedding. Qed.

Lemma isspace_whitespace c : isspace c = true -> In (String c "") whitespace.
Proof.
  unfold isspace. cbv zeta. intros H.
  assert (code c = 9 \/ code c = 10 \/ code c = 11 \/ code c = 12 \/ code c = 13
          \/ code c = 28 \/ code c = 29 \/ code c = 30 \/ code c = 31
          \/ code c = 32)%nat as Hc.
  { apply orb_true_iff in H as [H|H]; apply andb_true_iff in H as [H1 H2];
      apply Nat.leb_le in H1, H2; lia. }
  repeat (destruct Hc as [Hc|Hc]; [apply code_ascii in Hc; subst c; cbv; tauto|]).
  apply code_ascii in Hc. subst c. cbv. tauto.
Qed.

Lemma isspace2_whitespace c1 c2 :
  isspace2 c1 c2 = true -> In (String c1 (String c2 "")) whitespace.
Proof.
  unfold isspace2. intros H. apply andb_true_iff in H as [H1 H2].
  apply Nat.eqb_eq, code_ascii in H1. subst c1.
  apply orb_true_iff in H2 as [H2|H2]; apply Nat.eqb_eq, code_ascii in H2; subst c2;
    cbv; tauto.
Qed.

Lemma isspace3_whitespace c1 c2 c3 :
  isspace3 c1 c2 c3 = true -> In (String c1 (String c2 (String c3 ""))) whitespace.
Proof.
  unfold isspace3. intros H.
  repeat (rewrite ?orb_true_iff, ?andb_true_iff, ?Nat.eqb_eq, ?Nat.leb_le in H).
  assert (exists n1 n2 n3, code c1 = n1 /\ code c2 = n2 /\ code c3 = n3
            /\ In [n1; n2; n3]
                 [[225; 154; 128];
                  [226; 128; 128]; [226; 128; 129]; [226; 128; 130]; [226; 128; 131];
                  [226; 128; 132]; [226; 128; 133]; [226; 128; 134]; [226; 128; 135];
                  [226; 128; 136]; [226; 128; 137]; [226; 128; 138];
                  [226; 128; 168]; [226; 128; 169]; [226; 128; 175]; [226; 129; 159];
                  [227; 128; 128]]%nat) as (n1 & n2 & n3 & E1 & E2 & E3 & Hin).
  { exists (code c1), (code c2), (code c3). repeat split.
    destruct H as [[[[[-> ->] ->] | [[-> ->] H]] | [[-> ->] ->]] | [[-> ->] ->]];
      [cbn; tauto| |cbn; tauto|cbn; tauto].
    assert (code c3 = 128 \/ code c3 = 129 \/ code c3 = 130 \/ code c3 = 131
            \/ code c3 = 132 \/ code c3 = 133 \/ code c3 = 134 \/ code c3 = 135
            \/ code c3 = 136 \/ code c3 = 137 \/ code c3 = 138 \/ code c3 = 168
            \/ code c3 = 169 \/ code c3 = 175)%nat as Hc by lia.
    repeat (destruct Hc as [-> | Hc]; [cbn; tauto|]). rewrite Hc. cbn. tauto. }
  apply code_ascii in E1, E2, E3. subst c1 c2 c3.
  cbn [In] in Hin.
  repeat (destruct Hin as [[= <- <- <-] | Hin]; [cbv; tauto|]). destruct Hin.
Qed.

Lemma lstrip_split s : exists l, s = l +:+ lstrip s /\ all_space l.
Proof.
  remember (String.length s) as n eqn:Hn. revert s Hn.
  induction n as [n IH] using lt_wf_ind. intros s Hn.
  assert (Hnone : exists l, s = l +:+ s /\ all_space l).
  { exists "". split; [reflexivity|constructor]. }
  assert (Hstep : forall c s', In c whitespace -> s = c +:+ s' ->
            (String.length s' < n)%nat ->
            exists l, s = l +:+ lstrip s' /\ all_space l).
  { intros c s' Hc -> Hlt. destruct (IH _ Hlt s' eq_refl) as (l & E & Hl).
    exists (c +:+ l). split; [|now constructor].
    rewrite string_app_assoc. now rewrite <- E. }
  destruct s as [|c1 s1]; [exact Hnone|]. cbn [lstrip].
  destruct (isspace c1) eqn:E1.
  { apply (Hstep (String c1 "")); [now apply isspace_whitespace|reflexivity|].
    subst n. cbn. lia. }
  destruct s1 as [|c2 s2]; [exact Hnone|].
  destruct (isspace2 c1 c2) eqn:E2.
  { apply (Hstep (String c1 (String c2 ""))); [now apply isspace2_whitespace|reflexivity|].
    subst n. cbn. lia. }
  destruct s2 as [|c3 s3]; [exact Hnone|].
  destruct (isspace3 c1 c2 c3) eqn:E3; [|exact Hnone].
  apply (Hstep (String c1 (String c2 (String c3 ""))));
    [now apply isspace3_whitespace|reflexivity|].
  subst n. cbn. lia.
Qed.

Lemma only_space_all_space s : only_space s = true <-> all_space s.
Proof.
  unfold only_space. split.
  - intros H. destruct (lstrip_split s) as (l & E & Hl).
    destruct (lstrip s); [|discriminate].
    rewrite string_app_empty_r in E. now subst l.
  - intros H. rewrite <- (string_app_empty_r s), (lstrip_all_space s "" H).
    reflexivity.
Qed.

Lemma rstrip_split s : exists r, s = rstrip s +:+ r /\ all_space r.
Proof.
  induction s as [|c s (r & E & Hr)].
  - exists "". split; [reflexivity|constructor].
  - cbn [rstrip]. destruct (only_space (String c s)) eqn:Eo.
    + exists (String c s). split; [reflexivity|]. now apply only_space_all_space.
    + exists r. split; [|exact Hr].
      change (String c (rstrip s) +:+ r) with (String c (rstrip s +:+ r)).
      now rewrite <- E.
Qed.

Lemma rstrip_all_space r : all_space r -> rstrip r = "".
Proof.
  intros H. destruct r as [|c r]; [reflexivity|].
  cbn [rstrip]. apply only_space_all_space in H. now rewrite H.
Qed.

(** A character of "yes", in either case, starts no white space. *)
Definition letter (c : ascii) : Prop := In c ["y"; "e"; "s"; "Y"; "E"; "S"]%char.

Lemma lstrip_letter c s : letter c -> lstrip (String c s) = String c s.
Proof.
  intros H. cbv [letter In] in H.
  repeat (destruct H as [<- | H]; [destruct s as [|c2 [|c3 s3]]; reflexivity|]).
  destruct H.
Qed.

Lemma rstrip_letter c s : letter c -> rstrip (String c s) = String c (rstrip s).
Proof.
  intros H. cbn [rstrip]. unfold only_space. now rewrite (lstrip_letter c s H).
Qed.

(** The letters that [lower] sends to a letter of "yes". *)
Lemma lower_ascii_yes a x :
  In x ["y"; "e"; "s"]%char -> lower_ascii a = x ->
  a = x \/ a = ascii_of_nat (nat_of_ascii x - 32).
Proof.
  intros Hx <-. revert Hx.
  destruct a as [[] [] [] [] [] [] [] []]; vm_compute; intuition discriminate.
Qed.

Lemma lower_yes c :
  str_in (lower c) ["yes"; "y"] = true -> In c yes_spellings.
Proof.
  unfold str_in. cbn [existsb]. rewrite !orb_true_iff, !String.eqb_eq.
  intros [H | [H | H]]; [| |discriminate].
  - destruct c as [|a1 [|a2 [|a3 [|a4 c]]]]; try discriminate.
    cbn [lower] in H. injection H as H1 H2 H3.
    apply lower_ascii_yes in H1; [|cbn; tauto].
    apply lower_ascii_yes in H2; [|cbn; tauto].
    apply lower_ascii_yes in H3; [|cbn; tauto].
    destruct H1 as [-> | ->], H2 as [-> | ->], H3 as [-> | ->]; cbn; tauto.
  - destruct c as [|a1 [|a2 c]]; try discriminate.
    cbn [lower] in H. injection H as H1.
    apply lower_ascii_yes in H1; [|cbn; tauto].
    destruct H1 as [-> | ->]; cbn; tauto.
Qed.

(** An answer is a yes exactly when it is "y" or "yes", in any mix of
    capitals, between white space. *)
Lemma affirmative_spellings line :
  affirmative line = true <->
  exists l c r, line = l +:+ c +:+ r /\ all_space l /\ all_space r
                /\ In c yes_spellings.
Proof.
  split.
  - intros H. unfold affirmative, strip in H.
    destruct (lstrip_split line) as (l & El & Hl).
    destruct (rstrip_split (lstrip line)) as (r & Er & Hr).
    exists l, (rstrip (lstrip line)), r.
    repeat split; try assumption.
    + now rewrite <- Er.
    + now apply lower_yes.
  - intros (l & c & r & -> & Hl & Hr & Hc).
    unfold affirmative, strip. rewrite (lstrip_all_space _ _ Hl).
    cbn in Hc.
    repeat (destruct Hc as [<- | Hc];
            [rewrite ?string_app_cons, string_app_empty;
             rewrite lstrip_letter by (cbv; tauto);
             rewrite !rstrip_letter by (cbv; tauto);
             rewrite (rstrip_all_space r Hr); reflexivity|]).
    contradiction.
Qed.

End AnswerFacts.

(** ** Saving the report *)

Section SaveFacts.

Variable format : Q -> string -> string.

Lemma save_option_run key material L B W bt rs calculated
    (line : string) (rest out : list string) (fs : gmap string string) :
  save_option format key material L B W bt rs calculated (World (line :: rest) out fs) =
    (World rest
       (out ++ [save_question]
            ++ (if affirmative line then [saved_line (report_filename key bt)] else [])
            ++ closing)
       (if affirmative line
        then <[report_filename key bt :=
                 file_report format material L B W bt rs calculated]> fs
        else fs),
     Ok tt).
Proof.
  unfold save_option. rewrite run_write. cbn [stdin stdout files].
  rewrite run_input. cbv zeta. fold (affirmative line).
  destruct (affirmative line).
  - rewrite run_assoc, run_write_file, !run_print, run_print_last.
    cbn [stdin stdout files]. rewrite <- !app_assoc. reflexivity.
  - rewrite run_ret, run_print, run_print_last.
    cbn [stdin stdout files]. rewrite <- !app_assoc. reflexivity.
Qed.

(** C10. After the save question the program reads one line.  When the
    line, stripped of surrounding white space and put in lower case, is "yes"
    or "y" (so "y" or "yes" in any mix of capitals, between white space:
    "YES", " y ", "Yes"), it writes the report file, says so, and prints the
    closing message; for every other line ("no", the empty line, any other
    text) it leaves the files as they are and prints the closing message.
    Neither way raises.  White space is what [str.strip] removes: the
    characters of [whitespace], among them the no-break space U+00A0 and the
    ideographic space U+3000. *)
Theorem report_saved_iff_affirmative key material L B W bt rs calculated
    (line : string) (rest out : list string) (fs : gmap string string) :
  let filename := report_filename key bt in
  let report := file_report format material L B W bt rs calculated in
  let run := save_option format key material L B W bt rs calculated
               (World (line :: rest) out fs) in
  run = (World rest
           (out ++ [save_question]
                ++ (if affirmative line then [saved_line filename] else [])
                ++ closing)
           (if affirmative line then <[filename := report]> fs else fs),
         Ok tt)
  /\ (affirmative line = true -> files (fst run) !! filename = Some report)
  /\ (affirmative line = false -> files (fst run) = fs)
  /\ (fs !! filename = None ->
      (is_Some (files (fst run) !! filename) <-> affirmative line = true))
  /\ (affirmative line = true <->
      exists l c r, line = l +:+ c +:+ r /\ all_space l
                    /\ all_space r /\ In c yes_spellings)
  /\ affirmative "YES" = true /\ affirmative " y " = true
  /\ affirmative "Yes" = true /\ affirmative "no" = false
  /\ affirmative "" = false /\ affirmative "yes please" = false
  /\ affirmative (utf8 [194; 160]%nat +:+ "yes") = true
  /\ affirmative ("Y" +:+ utf8 [227; 128; 128]%nat) = true
  /\ affirmative (utf8 [226; 128; 139]%nat +:+ "yes") = false.
Proof.
  intros filename report run. subst run filename report.
  rewrite save_option_run. cbn [fst files].
  split; [reflexivity|]. split; [|split; [|split; [|split]]].
  - intros ->. apply lookup_insert_eq.
  - now intros ->.
  - intros Hnone. destruct (affirmative line).
    + rewrite lookup_insert_eq. split; [reflexivity|eauto].
    + rewrite Hnone. split; [intros [x Hx]; discriminate|discriminate].
  - apply affirmative_spellings.
  - repeat split.
Qed.

End SaveFacts.

(** The answer " Yes " saves the report of an empty series of readings; the
    answer "no" does not. *)
Lemma report_saved_iff_affirmative_witness :
  files (fst (save_option sample_format "iron"
                (Material "Iron" (Int 210) (Float 7.87)) 100 2 1 1 [] 0
                (World [" Yes "] [] ∅)))
    !! "youngs_modulus_iron_1.txt"
  = Some (file_report sample_format
            (Material "Iron" (Int 210) (Float 7.87)) 100 2 1 1 [] 0)
  /\ files (fst (save_option sample_format "iron"
                   (Material "Iron" (Int 210) (Float 7.87)) 100 2 1 1 [] 0
                   (World ["no"] [] ∅))) = ∅.
Proof.
  split.
  - apply (report_saved_iff_affirmative sample_format "iron"
             (Material "Iron" (Int 210) (Float 7.87)) 100 2 1 1 [] 0
             " Yes " [] [] ∅). reflexivity.
  - apply (report_saved_iff_affirmative sample_format "iron"
             (Material "Iron" (Int 210) (Float 7.87)) 100 2 1 1 [] 0
             "no" [] [] ∅). reflexivity.
Defined.

(** ** Reading the report file back *)

Section TextFacts.

Lemma free_of_cons c a s :
  free_of c (String a s) = negb (Ascii.eqb a c) && free_of c s.
Proof. reflexivity. Qed.

Lemma free_of_app c s t : free_of c (s +:+ t) = free_of c s && free_of c t.
Proof.
  induction s as [|a s IH]; [reflexivity|].
  rewrite string_app_cons, !free_of_cons, IH. now rewrite andb_assoc.
Qed.

Lemma float_text_free_of c s :
  float_char c = false -> float_text s = true -> free_of c s = true.
Proof.
  intros Hc. unfold float_text, free_of.
  induction s as [|a s IH]; [reflexivity|].
  cbn [list_ascii_of_string forallb]. rewrite !andb_true_iff.
  intros [Ha Hs]. split; [|now apply IH].
  destruct (Ascii.eqb a c) eqn:E; [|reflexivity].
  apply Ascii.eqb_eq in E. congruence.
Qed.

Lemma float_text_uint d : float_text (NilEmpty.string_of_uint d) = true.
Proof. induction d; cbn [NilEmpty.string_of_uint]; try reflexivity; exact IHd. Qed.

(** An integer is written with digits and a sign. *)
Lemma float_text_str_int z : float_text (str_int z) = true.
Proof.
  unfold str_int, NilZero.string_of_int, NilZero.string_of_uint.
  destruct (Z.to_int z) as [d|d]; destruct d; try reflexivity;
    try apply (float_text_uint (_ _));
    change (float_text (String ?c ?s)) with (float_char c && float_text s);
    apply andb_true_iff; (split; [reflexivity|apply (float_text_uint (_ _))]).
Qed.

Lemma split_at_app c a b :
  free_of c a = true -> split_at c (a +:+ String c b) = Some (a, b).
Proof.
  induction a as [|x a IH]; intros H.
  - rewrite string_app_empty. cbn [split_at]. now rewrite Ascii.eqb_refl.
  - rewrite free_of_cons in H. apply andb_true_iff in H as [Hx Ha].
    rewrite string_app_cons. cbn [split_at].
    apply negb_true_iff in Hx. rewrite Hx, (IH Ha). reflexivity.
Qed.

Lemma strip_prefix_app p s : strip_prefix p (p +:+ s) = Some s.
Proof.
  induction p as [|a p IH]; [now destruct s|].
  rewrite string_app_cons. cbn [strip_prefix]. now rewrite Ascii.eqb_refl.
Qed.

Lemma lines_of_app a rest :
  one_line a = true -> lines_of (a +:+ nl +:+ rest) = a :: lines_of rest.
Proof.
  unfold one_line. induction a as [|x a IH]; intros H.
  - reflexivity.
  - rewrite free_of_cons in H. apply andb_true_iff in H as [Hx Ha].
    rewrite string_app_cons. cbn [lines_of].
    apply negb_true_iff in Hx. rewrite Hx, (IH Ha). reflexivity.
Qed.

Lemma lines_of_unlines ls rest :
  Forall (fun l => one_line l = true) ls ->
  lines_of (unlines ls +:+ rest) = ls ++ lines_of rest.
Proof.
  induction 1 as [|l ls Hl _ IH]; [reflexivity|].
  cbn [unlines fold_right app]. fold (unlines ls).
  rewrite !string_app_assoc, lines_of_app by exact Hl.
  now rewrite IH.
Qed.

End TextFacts.

(** Brings nested appends of texts to one right-nested chain. *)
Ltac flatten_strings :=
  repeat (rewrite string_app_assoc || rewrite string_app_cons
          || rewrite string_app_empty).

Section RoundTrip.

Variable format : Q -> string -> string.
Variable float : string -> option Q.

Lemma report_readings_cons r rs :
  report_readings format (r :: rs) =
    report_line format r +:+ nl +:+ report_readings format rs.
Proof.
  cbn [report_readings]. unfold report_line, nl.
  flatten_strings. reflexivity.
Qed.

Lemma read_line_report_line r :
  readable format float (weight r) -> readable format float (depression r) ->
  read_line float (report_line format r) = Some (weight r, depression r).
Proof.
  intros [Fw Tw] [Fd Td]. unfold read_line, report_line.
  rewrite split_at_app.
  2:{ rewrite free_of_app. apply andb_true_iff. split; [reflexivity|].
      apply float_text_free_of; [reflexivity|apply float_text_str_int]. }
  cbn [mbind option_bind]. rewrite strip_prefix_app.
  cbn [mbind option_bind].
  rewrite split_at_app by (now apply float_text_free_of).
  cbn [mbind option_bind]. rewrite strip_prefix_app.
  cbn [mbind option_bind].
  rewrite split_at_app by (now apply float_text_free_of).
  cbn [mbind option_bind]. rewrite Fw, Fd. reflexivity.
Qed.

Lemma report_line_one_line r :
  readable format float (weight r) -> readable format float (depression r) ->
  one_line (report_line format r) = true.
Proof.
  intros [_ Tw] [_ Td]. unfold one_line, report_line.
  repeat (rewrite free_of_app || rewrite free_of_cons).
  rewrite !(float_text_free_of (ascii_of_nat 10)) by
    (reflexivity || assumption || apply float_text_str_int).
  reflexivity.
Qed.

(** The lines of the readings, read back. *)
Lemma read_report_readings (rs : list reading) :
  Forall (fun r => readable format float (weight r)
                   /\ readable format float (depression r)) rs ->
  mapM (read_line float) (lines_of (report_readings format rs)) =
    Some (map (fun r => (weight r, depression r)) rs).
Proof.
  induction 1 as [|r rs [Hw Hd] _ IH]; [reflexivity|].
  rewrite report_readings_cons, lines_of_app by now apply report_line_one_line.
  cbn [mapM map]. rewrite read_line_report_line by assumption.
  cbn [mbind option_bind]. rewrite IH. reflexivity.
Qed.

Lemma file_report_lines material L B W bt rs calculated :
  file_report format material L B W bt rs calculated =
    unlines (header_lines format material L B W bt calculated ++ ["Readings:"])
    +:+ report_readings format rs.
Proof.
  unfold file_report, header_lines, unlines. cbn [fold_right app].
  repeat (rewrite string_app_assoc || rewrite string_app_empty). reflexivity.
Qed.

Lemma header_one_line material L B W bt calculated :
  one_line (name material) = true ->
  Forall (fun s => one_line s = true)
    (header_values format material L B W calculated) ->
  Forall (fun l => one_line l = true)
    (header_lines format material L B W bt calculated ++ ["Readings:"]).
Proof.
  intros Hn Hv. unfold header_values in Hv.
  apply Forall_cons_iff in Hv as [Hy Hv]. apply Forall_cons_iff in Hv as [Hc Hv].
  apply Forall_cons_iff in Hv as [HL Hv]. apply Forall_cons_iff in Hv as [HB Hv].
  apply Forall_cons_iff in Hv as [HW _].
  unfold one_line in *. unfold header_lines. cbn [app].
  repeat (constructor;
    [first [reflexivity
           | repeat (rewrite free_of_app || rewrite free_of_cons);
             rewrite ?Hn, ?Hy, ?Hc, ?HL, ?HB, ?HW;
             first [reflexivity | destruct (bt =? 1)%Z; reflexivity]]|]).
  constructor.
Qed.

Lemma after_heading_header material L B W bt calculated rest :
  after_heading "Readings:"
    ((header_lines format material L B W bt calculated ++ ["Readings:"]) ++ rest)
  = Some rest.
Proof.
  unfold header_lines. cbn [app after_heading].
  destruct (bt =? 1)%Z; reflexivity.
Qed.

(** C7. The readings written in the report file are read back exactly and
    in order: reading the lines after "Readings:" of the file the program
    writes gives the weight and the deflection of every reading.  The text
    conversions are Python's: numbers are written on one line, weights and
    deflections with the characters of a float, and [float] reads back what
    [format] wrote. *)
Theorem file_report_round_trip material L B W bt rs calculated :
  one_line (name material) = true ->
  Forall (fun s => one_line s = true)
    (header_values format material L B W calculated) ->
  Forall (fun r => readable format float (weight r)
                   /\ readable format float (depression r)) rs ->
  read_report float (file_report format material L B W bt rs calculated) =
    Some (map (fun r => (weight r, depression r)) rs)
  /\ read_readings float (report_readings format rs) =
    Some (map (fun r => (weight r, depression r)) rs)
  /\ (forall key line rest out fs, affirmative line = true ->
        files (fst (save_option format key material L B W bt rs calculated
                      (World (line :: rest) out fs)))
          !! report_filename key bt ≫= read_report float =
        Some (map (fun r => (weight r, depression r)) rs)).
Proof.
  intros Hn Hv Hrs.
  assert (E : read_report float (file_report format material L B W bt rs calculated)
              = Some (map (fun r => (weight r, depression r)) rs)).
  { unfold read_report.
    rewrite file_report_lines, lines_of_unlines by now apply header_one_line.
    rewrite after_heading_header. cbn [mbind option_bind].
    now apply read_report_readings. }
  split; [exact E|]. split; [now apply read_report_readings|].
  intros key line rest out fs Hline.
  rewrite save_option_run, Hline. cbn [fst files].
  rewrite lookup_insert_eq. exact E.
Qed.

End RoundTrip.

(** Two readings, one of them upwards, written and read back. *)
Lemma file_report_round_trip_witness :
  read_report sample_float
    (file_report sample_format (Material "Iron" (Int 210) (Float 7.87))
       100 2 1 1 [Reading 1 10 (-3); Reading 2 20 0] 0)
  = Some [(10, -3); (20, 0)].
Proof.
  apply (file_report_round_trip sample_format sample_float
           (Material "Iron" (Int 210) (Float 7.87)) 100 2 1 1
           [Reading 1 10 (-3); Reading 2 20 0] 0).
  - reflexivity.
  - repeat constructor.
  - repeat constructor.
Defined.

(** ** A complete run *)

(** Iron, a rod of 100 x 2 x 1 cm, uniform bending, two readings of 50 g
    each step with deflections 1 and 0, and the answer " Yes ": the program
    ends normally, has read all its input, and the file it wrote reads back
    as the two readings. *)
Example complete_run :
  let run := main sample_int sample_float sample_format
               (World ["1"; "100"; "2"; "1"; "1"; "2"; "50"; "1"; "0"; " Yes "] [] ∅) in
  snd run = Ok tt
  /\ stdin (fst run) = []
  /\ files (fst run) !! "youngs_modulus_iron_1.txt" ≫= read_report sample_float
     = Some [(50, 1); (100, 0)]
  /\ List.last (stdout (fst run)) "" = repeat_string "=" 80 +:+ nl.
Proof. cbv zeta. repeat split; vm_compute; reflexivity. Qed.

(** The same run with a line that is not a number and a choice out of range
    on the way, and the answer "no": no file is written. *)
Example complete_run_no_file :
  let run := main sample_int sample_float sample_format
               (World ["iron"; "14"; "1"; "100"; "2"; "1"; "1"; "2"; "50"; "1"; "0"; "no"]
                  [] ∅) in
  snd run = Ok tt /\ stdin (fst run) = [] /\ files (fst run) = ∅.
Proof. cbv zeta. repeat split; vm_compute; reflexivity. Qed.

(** * Further properties *)

(** ** The computations: the sign of the deflection in binary64 *)

Section Binary64Sign.

Import Binary64.

Variable pow : t -> Z -> result t.
Variable sum : list t -> t.

Lemma binary_round_aux_opp s m e l :
  binary_round_aux prec emax (negb s) m e l = opp (binary_round_aux prec emax s m e l).
Proof.
  unfold binary_round_aux.
  destruct (shr_fexp prec emax m e l) as [mrs' e'].
  destruct (shr_fexp prec emax _ e' loc_Exact) as [mrs'' e''].
  destruct (shr_m mrs'') as [|p|p]; [reflexivity| |reflexivity].
  destruct (e'' <=? emax - prec)%Z; reflexivity.
Qed.

Lemma div_opp_100 x : div (opp x) (of_int 100) = opp (div x (of_int 100)).
Proof.
  destruct x as [[]|[]| |s m e]; try reflexivity.
  change (of_int 100) with (S754_finite false 7036874417766400 (-46)).
  unfold div, opp. cbn [SFopp SFdiv].
  destruct (SFdiv_core_binary prec emax (Z.pos m) e (Z.pos 7036874417766400) (-46))
    as [[mz ez] lz].
  rewrite !xorb_false_r. apply binary_round_aux_opp.
Qed.

Lemma abs_opp x : abs (opp x) = abs x.
Proof. now destruct x. Qed.

Lemma ne_opp_zero x : ne (opp x) (of_int 0) = ne x (of_int 0).
Proof. now destruct x as [[]|[]| |[] m e]. Qed.

Lemma included_negate r : included (negate_deflection r) = included r.
Proof.
  unfold included, negate_deflection. cbn [depression].
  now rewrite div_opp_100, ne_opp_zero.
Qed.

Lemma uniform_value_negate L I r :
  uniform_value pow L I (negate_deflection r) = uniform_value pow L I r.
Proof.
  unfold uniform_value, negate_deflection. cbn [depression weight].
  now rewrite div_opp_100, abs_opp.
Qed.

Lemma point_load_value_negate L I r :
  point_load_value pow L I (negate_deflection r) = point_load_value pow L I r.
Proof.
  unfold point_load_value, negate_deflection. cbn [depression weight].
  now rewrite div_opp_100, abs_opp.
Qed.

Lemma traverse_negate (f : reading -> result t) rs :
  (forall r, f (negate_deflection r) = f r) ->
  traverse f (List.filter included (map negate_deflection rs))
  = traverse f (List.filter included rs).
Proof.
  intros Hf. induction rs as [|r rs IH]; [reflexivity|].
  cbn [map List.filter]. rewrite included_negate.
  destruct (included r); [|exact IH]. cbn [traverse]. now rewrite Hf, IH.
Qed.

(** X16. In binary64, bit for bit: with every deflection replaced by its
    negation both computations give the same result as before, the same
    value or the same exception, for every rod and every list of readings,
    whatever [pow] and [sum] are. *)
Theorem binary64_sign_is_ignored
    (L B W : Binary64.t) (rs : list Binary64.reading) :
  Binary64.calculate_youngs_modulus_uniform pow sum L B W
    (map Binary64.negate_deflection rs)
  = Binary64.calculate_youngs_modulus_uniform pow sum L B W rs
  /\ Binary64.calculate_youngs_modulus_nonuniform pow sum L B W
       (map Binary64.negate_deflection rs)
     = Binary64.calculate_youngs_modulus_nonuniform pow sum L B W rs.
Proof.
  rewrite !(uniform_as_mean pow sum), !(nonuniform_as_mean pow sum).
  destruct (pow W 3) as [p|e]; [|split; reflexivity]. cbn [Py.bind].
  rewrite (traverse_negate _ rs (uniform_value_negate L _)).
  rewrite (traverse_negate _ rs (point_load_value_negate L _)).
  split; reflexivity.
Qed.

End Binary64Sign.

(** A reading of -0.1 cm gives what the reading of 0.1 cm gives. *)
Lemma binary64_sign_is_ignored_example :
  Binary64.calculate_youngs_modulus_uniform Binary64.power Binary64.sum_left
    (Binary64.of_int 100) (Binary64.of_int 2) (Binary64.decimal 5 1)
    [Binary64.Reading 1 (Binary64.of_int 50) (Binary64.decimal (-1) 1)]
  = Ok Binary64.example_modulus.
Proof. vm_compute. reflexivity. Qed.

(** ** The computations in exact arithmetic, for the whole program *)

Section PhysicsMore.

Lemma calculated_mean bt L B W rs :
  0 < L -> 0 < B -> 0 < W ->
  exists y, calculated bt L B W rs = Ok y /\
    y == Spec.mean (map (modulus_formula bt L B W) (List.filter included rs)).
Proof.
  intros HL HB HW. apply positive_nonzero in HL, HB, HW.
  unfold calculated, modulus_formula. destruct (bt =? 1)%Z.
  - now apply uniform_mean.
  - now apply nonuniform_mean.
Qed.

End PhysicsMore.

(** ** The questions *)

Section ConsoleOnly.

Lemma console_step_refl w : console_step w w.
Proof.
  repeat split; [exists []; now rewrite app_nil_r|now exists []].
Qed.

Lemma console_step_trans w1 w2 w3 :
  console_step w1 w2 -> console_step w2 w3 -> console_step w1 w3.
Proof.
  intros (F1 & [o1 O1] & [u1 U1]) (F2 & [o2 O2] & [u2 U2]). repeat split.
  - congruence.
  - exists (o1 ++ o2). now rewrite O2, O1, app_assoc.
  - exists (u1 ++ u2). now rewrite U1, U2, app_assoc.
Qed.

Lemma console_only_ret {A} allowed (P : A -> Prop) a :
  P a -> console_only allowed P (ret a).
Proof. intros H w. split; [apply console_step_refl|exact H]. Qed.

Lemma console_only_write allowed s : console_only allowed (fun _ => True) (write s).
Proof.
  intros w. split; [|exact I]. repeat split; [now exists [s]|now exists []].
Qed.

Lemma console_only_print allowed s : console_only allowed (fun _ => True) (print s).
Proof. apply console_only_write. Qed.

Lemma console_only_lift {A} allowed (P : A -> Prop) (r : result A) :
  match r with Ok a => P a | Raise e => allowed e end ->
  console_only allowed P (lift r).
Proof. intros H w. split; [apply console_step_refl|exact H]. Qed.

Lemma console_only_bind {A B} allowed (P : A -> Prop) (P' : B -> Prop)
    (m : IO A) (k : A -> IO B) :
  console_only allowed P m -> (forall a, P a -> console_only allowed P' (k a)) ->
  console_only allowed P' (iobind m k).
Proof.
  intros Hm Hk w. unfold iobind. destruct (Hm w) as [Hs Hr].
  destruct (m w) as [w1 [a|e]]; cbn [fst snd] in *.
  - destruct (Hk a Hr w1) as [Hs' Hr']. split; [|exact Hr'].
    now apply console_step_trans with w1.
  - now split.
Qed.

Lemma console_only_weaken {A} (allowed allowed' : exn -> Prop) (P P' : A -> Prop) m :
  (forall e, allowed e -> allowed' e) -> (forall a, P a -> P' a) ->
  console_only allowed P m -> console_only allowed' P' m.
Proof.
  intros He Ha Hm w. destruct (Hm w) as [Hs Hr]. split; [exact Hs|].
  destruct (snd (m w)); auto.
Qed.

Lemma console_only_reading_lines {A} allowed (P : A -> Prop)
    (loop : list string -> outcome A) :
  (forall lines,
     (exists used, lines = used ++ fst (left_and_result (loop lines)))
     /\ match snd (left_and_result (loop lines)) with
        | Ok a => P a
        | Raise e => allowed e
        end) ->
  console_only allowed P (reading_lines loop).
Proof.
  intros H w. unfold reading_lines. specialize (H (stdin w)).
  unfold left_and_result in H. destruct (loop (stdin w)) as [[out rest] r].
  cbn [fst snd] in *. destruct H as [Hused Hr]. split; [|exact Hr].
  repeat split; [now exists out|exact Hused].
Qed.

End ConsoleOnly.

Section Questions.

Variable int : string -> option Z.
Variable float : string -> option Q.

Lemma left_and_result_after {A} out (o : outcome A) :
  left_and_result (after out o) = left_and_result o.
Proof. destruct o as [[out' rest] r]. reflexivity. Qed.

Lemma le_0_positive_float x : Py.le x 0 = negb (positive_float x).
Proof. unfold positive_float, Py.lt, Py.le. now rewrite negb_involutive. Qed.

Lemma material_choice_number z :
  material_choice z = if material_number z then Some (material_at z) else None.
Proof. reflexivity. Qed.

Lemma material_at_entry z :
  material_number z = true ->
  exists key m, material_at z = Ok (key, m) /\ In (key, m) MATERIAL_DATABASE.
Proof.
  intros H. unfold material_number in H. apply andb_true_iff in H as [H1 H2].
  apply Z.leb_le in H1, H2.
  destruct (material_choice_in_range z (conj H1 H2)) as (key & m & Hnth & Hc).
  rewrite material_choice_number in Hc. destruct (material_number z); [|discriminate].
  injection Hc as Hc. exists key, m. split; [exact Hc|].
  eapply nth_error_In, Hnth.
Qed.

Lemma first_accepted_spec {A} (parse : string -> option A) ok lines :
  match first_accepted parse ok lines with
  | Some (a, rest) => ok a = true /\ exists used, lines = used ++ rest
  | None => True
  end.
Proof.
  induction lines as [|line lines IH]; [exact I|]. cbn [first_accepted].
  assert (Hskip : match first_accepted parse ok lines with
                  | Some (a, rest) => ok a = true /\ exists used, line :: lines = used ++ rest
                  | None => True
                  end).
  { destruct (first_accepted parse ok lines) as [[a rest]|]; [|exact I].
    destruct IH as [Ha [used ->]]. split; [exact Ha|]. now exists (line :: used). }
  destruct (parse line) as [a|]; [|exact Hskip].
  destruct (ok a) eqn:E; [|exact Hskip]. split; [exact E|]. now exists [line].
Qed.

Lemma material_loop_result lines :
  left_and_result (get_material_choice_loop int lines) =
    match first_accepted int material_number lines with
    | Some (z, rest) => (rest, material_at z)
    | None => ([], Raise EOFError)
    end.
Proof.
  induction lines as [|line lines IH]; [reflexivity|].
  cbn [get_material_choice_loop first_accepted].
  destruct (int line) as [z|]; [|now rewrite left_and_result_after].
  rewrite material_choice_number.
  destruct (material_number z); [reflexivity|now rewrite left_and_result_after].
Qed.

Lemma bending_loop_result lines :
  left_and_result (get_bending_type_loop int lines) =
    match first_accepted int bending_number lines with
    | Some (z, rest) => (rest, Ok z)
    | None => ([], Raise EOFError)
    end.
Proof.
  induction lines as [|line lines IH]; [reflexivity|].
  cbn [get_bending_type_loop first_accepted].
  destruct (int line) as [z|]; [|now rewrite left_and_result_after].
  fold (bending_number z).
  destruct (bending_number z); [reflexivity|now rewrite left_and_result_after].
Qed.

Lemma num_readings_loop_result lines :
  left_and_result (num_readings_loop int lines) =
    match first_accepted int positive_int lines with
    | Some (z, rest) => (rest, Ok z)
    | None => ([], Raise EOFError)
    end.
Proof.
  induction lines as [|line lines IH]; [reflexivity|].
  cbn [num_readings_loop first_accepted].
  destruct (int line) as [z|]; [|now rewrite left_and_result_after].
  unfold positive_int. rewrite Z.ltb_antisym.
  destruct (z <=? 0)%Z; [now rewrite left_and_result_after|reflexivity].
Qed.

Lemma weight_increment_loop_result lines :
  left_and_result (weight_increment_loop float lines) =
    match first_accepted float positive_float lines with
    | Some (x, rest) => (rest, Ok x)
    | None => ([], Raise EOFError)
    end.
Proof.
  induction lines as [|line lines IH]; [reflexivity|].
  cbn [weight_increment_loop first_accepted].
  destruct (float line) as [x|]; [|now rewrite left_and_result_after].
  rewrite le_0_positive_float.
  destruct (positive_float x); cbn [negb];
    [reflexivity|now rewrite left_and_result_after].
Qed.

(** What a one-line question gives the rest of the program. *)
Lemma question_spec {A B} (parse : string -> option A) ok (f : A -> result B)
    (P : B -> Prop) (loop : list string -> outcome B) :
  (forall lines,
     left_and_result (loop lines) =
       match first_accepted parse ok lines with
       | Some (a, rest) => (rest, f a)
       | None => ([], Raise EOFError)
       end) ->
  (forall a, ok a = true -> exists b, f a = Ok b /\ P b) ->
  console_only end_of_input P (reading_lines loop).
Proof.
  intros Hloop Hok. apply console_only_reading_lines. intros lines.
  rewrite Hloop. pose proof (first_accepted_spec parse ok lines) as Hs.
  destruct (first_accepted parse ok lines) as [[a rest]|]; cbn [fst snd].
  - destruct Hs as [Ha Hused]. split; [exact Hused|].
    destruct (Hok a Ha) as (b & -> & Hb). exact Hb.
  - split; [exists lines; now rewrite app_nil_r|reflexivity].
Qed.

End Questions.

Section Dimensions.

Variable float : string -> option Q.

Lemma not_le_0 x : Py.le x 0 = false -> 0 < x.
Proof.
  unfold Py.le. intros H. apply Qnot_le_lt. intros Hle.
  apply Qle_bool_iff in Hle. congruence.
Qed.

Lemma get_dimensions_loop_spec (lines : list string) :
  match left_and_result (get_dimensions_loop float lines) with
  | (rest, Ok (L, B, W)) =>
      0 < L /\ 0 < B /\ 0 < W
      /\ exists skipped l1 l2 l3,
           lines = skipped ++ l1 :: l2 :: l3 :: rest
           /\ float l1 = Some L /\ float l2 = Some B /\ float l3 = Some W
  | (rest, Raise e) => e = EOFError /\ rest = []
  end.
Proof.
  remember (length lines) as n eqn:Hn.
  revert lines Hn. induction n as [n IH] using lt_wf_ind. intros lines Hn.
  assert (Hafter : forall used out, used <> [] ->
            lines = used ++ skipn (length used) lines ->
            match left_and_result
                    (after out (get_dimensions_loop float (skipn (length used) lines)))
            with
            | (rest, Ok (L, B, W)) =>
                0 < L /\ 0 < B /\ 0 < W
                /\ exists skipped l1 l2 l3,
                     lines = skipped ++ l1 :: l2 :: l3 :: rest
                     /\ float l1 = Some L /\ float l2 = Some B
                     /\ float l3 = Some W
            | (rest, Raise e) => e = EOFError /\ rest = []
            end).
  { intros used out Hused Hlines. rewrite left_and_result_after.
    set (lines' := skipn (length used) lines) in *.
    assert (Hlt : (length lines' < n)%nat).
    { assert (length lines = (length used + length lines')%nat) as Hlen
        by (rewrite Hlines at 1; apply length_app).
      destruct used; [contradiction|]. cbn [length] in Hlen. lia. }
    specialize (IH _ Hlt lines' eq_refl).
    destruct (left_and_result (get_dimensions_loop float lines')) as [rest [[[l b] w]|e]];
      [|exact IH].
    destruct IH as (Hl & Hb & Hw & skipped & l1 & l2 & l3 & E & F1 & F2 & F3).
    repeat split; try assumption.
    exists (used ++ skipped), l1, l2, l3. rewrite Hlines at 1.
    rewrite E, <- app_assoc. auto. }
  destruct lines as [|l1 lines1]; [now split|].
  cbn [get_dimensions_loop]. destruct (float l1) as [x1|] eqn:F1.
  2:{ apply (Hafter [l1]); [discriminate|reflexivity]. }
  destruct lines1 as [|l2 lines2]; [now split|].
  destruct (float l2) as [x2|] eqn:F2.
  2:{ apply (Hafter [l1; l2]); [discriminate|reflexivity]. }
  destruct lines2 as [|l3 lines3]; [now split|].
  destruct (float l3) as [x3|] eqn:F3.
  2:{ apply (Hafter [l1; l2; l3]); [discriminate|reflexivity]. }
  destruct (Py.le x1 0) eqn:E1; cbn [orb].
  { apply (Hafter [l1; l2; l3]); [discriminate|reflexivity]. }
  destruct (Py.le x2 0) eqn:E2; cbn [orb].
  { apply (Hafter [l1; l2; l3]); [discriminate|reflexivity]. }
  destruct (Py.le x3 0) eqn:E3.
  { apply (Hafter [l1; l2; l3]); [discriminate|reflexivity]. }
  cbn. apply not_le_0 in E1, E2, E3. repeat split; try assumption.
  exists [], l1, l2, l3. auto.
Qed.

End Dimensions.

Section Binary64Questions.

Variable int : string -> option Z.
Variable float : string -> option Binary64.t.

(** What passes a guard [x <= 0]: the numbers above zero, and NaN. *)
Lemma not_le_zero_cases x :
  Binary64.not_le_zero x = true <->
  Binary64.ltb (Binary64.of_int 0) x = true \/ x = S754_nan.
Proof.
  unfold Binary64.not_le_zero.
  destruct x as [[]|[]| |[] m e]; cbn; split; intros H; auto;
    try discriminate; destruct H as [H|H]; discriminate.
Qed.

Lemma binary64_weight_increment_loop_result lines :
  left_and_result (Binary64.weight_increment_loop float lines) =
    match first_accepted float Binary64.not_le_zero lines with
    | Some (x, rest) => (rest, Ok x)
    | None => ([], Raise EOFError)
    end.
Proof.
  induction lines as [|line lines IH]; [reflexivity|].
  cbn [Binary64.weight_increment_loop first_accepted].
  destruct (float line) as [x|]; [|now rewrite left_and_result_after].
  unfold Binary64.not_le_zero.
  destruct (Binary64.leb x (Binary64.of_int 0)); cbn [negb];
    [now rewrite left_and_result_after|reflexivity].
Qed.

Lemma binary64_get_dimensions_loop_spec (lines : list string) :
  match left_and_result (Binary64.get_dimensions_loop float lines) with
  | (rest, Ok (L, B, W)) =>
      Binary64.not_le_zero L = true /\ Binary64.not_le_zero B = true
      /\ Binary64.not_le_zero W = true
      /\ exists skipped l1 l2 l3,
           lines = skipped ++ l1 :: l2 :: l3 :: rest
           /\ float l1 = Some L /\ float l2 = Some B /\ float l3 = Some W
  | (rest, Raise e) => e = EOFError /\ rest = []
  end.
Proof.
  remember (length lines) as n eqn:Hn.
  revert lines Hn. induction n as [n IH] using lt_wf_ind. intros lines Hn.
  assert (Hafter : forall used out, used <> [] ->
            lines = used ++ skipn (length used) lines ->
            match left_and_result
                    (after out (Binary64.get_dimensions_loop float
                                  (skipn (length used) lines)))
            with
            | (rest, Ok (L, B, W)) =>
                Binary64.not_le_zero L = true /\ Binary64.not_le_zero B = true
                /\ Binary64.not_le_zero W = true
                /\ exists skipped l1 l2 l3,
                     lines = skipped ++ l1 :: l2 :: l3 :: rest
                     /\ float l1 = Some L /\ float l2 = Some B
                     /\ float l3 = Some W
            | (rest, Raise e) => e = EOFError /\ rest = []
            end).
  { intros used out Hused Hlines. rewrite left_and_result_after.
    set (lines' := skipn (length used) lines) in *.
    assert (Hlt : (length lines' < n)%nat).
    { assert (length lines = (length used + length lines')%nat) as Hlen
        by (rewrite Hlines at 1; apply length_app).
      destruct used; [contradiction|]. cbn [length] in Hlen. lia. }
    specialize (IH _ Hlt lines' eq_refl).
    destruct (left_and_result (Binary64.get_dimensions_loop float lines'))
      as [rest [[[l b] w]|e]]; [|exact IH].
    destruct IH as (Hl & Hb & Hw & skipped & l1 & l2 & l3 & E & F1 & F2 & F3).
    repeat split; try assumption.
    exists (used ++ skipped), l1, l2, l3. rewrite Hlines at 1.
    rewrite E, <- app_assoc. auto. }
  destruct lines as [|l1 lines1]; [now split|].
  cbn [Binary64.get_dimensions_loop]. destruct (float l1) as [x1|] eqn:F1.
  2:{ apply (Hafter [l1]); [discriminate|reflexivity]. }
  destruct lines1 as [|l2 lines2]; [now split|].
  destruct (float l2) as [x2|] eqn:F2.
  2:{ apply (Hafter [l1; l2]); [discriminate|reflexivity]. }
  destruct lines2 as [|l3 lines3]; [now split|].
  destruct (float l3) as [x3|] eqn:F3.
  2:{ apply (Hafter [l1; l2; l3]); [discriminate|reflexivity]. }
  unfold Binary64.not_le_zero.
  destruct (Binary64.leb x1 (Binary64.of_int 0)) eqn:E1; cbn [orb].
  { apply (Hafter [l1; l2; l3]); [discriminate|reflexivity]. }
  destruct (Binary64.leb x2 (Binary64.of_int 0)) eqn:E2; cbn [orb].
  { apply (Hafter [l1; l2; l3]); [discriminate|reflexivity]. }
  destruct (Binary64.leb x3 (Binary64.of_int 0)) eqn:E3.
  { apply (Hafter [l1; l2; l3]); [discriminate|reflexivity]. }
  unfold left_and_result. cbn [fst snd]. rewrite E1, E2, E3. repeat split.
  exists [], l1, l2, l3. auto.
Qed.

(** X7. Each question that takes one line returns the value of the first
    line that parses to an acceptable value and leaves the lines after it;
    the lines before it are skipped, and without such a line the input runs
    out.  Acceptable is a material number from 1 to the size of the
    database, a bending type 1 or 2, a number of readings above 0, and for
    the weight added at each reading a number for which [x <= 0] is false:
    a number above zero, or NaN. *)
Theorem first_acceptable_answer_wins (lines : list string) :
  left_and_result (get_material_choice_loop int lines) =
    match first_accepted int material_number lines with
    | Some (z, rest) => (rest, material_at z)
    | None => ([], Raise EOFError)
    end
  /\ left_and_result (get_bending_type_loop int lines) =
    match first_accepted int bending_number lines with
    | Some (z, rest) => (rest, Ok z)
    | None => ([], Raise EOFError)
    end
  /\ left_and_result (num_readings_loop int lines) =
    match first_accepted int positive_int lines with
    | Some (z, rest) => (rest, Ok z)
    | None => ([], Raise EOFError)
    end
  /\ left_and_result (Binary64.weight_increment_loop float lines) =
    match first_accepted float Binary64.not_le_zero lines with
    | Some (x, rest) => (rest, Ok x)
    | None => ([], Raise EOFError)
    end
  /\ (forall x,
        Binary64.not_le_zero x = true <->
        Binary64.ltb (Binary64.of_int 0) x = true \/ x = S754_nan).
Proof.
  split; [apply material_loop_result|].
  split; [apply bending_loop_result|].
  split; [apply num_readings_loop_result|].
  split; [apply binary64_weight_increment_loop_result|apply not_le_zero_cases].
Qed.

(** X8. [get_dimensions] returns three numbers read from three consecutive
    lines, the last lines it consumed, each of them above zero or NaN: the
    guard [length <= 0 or breadth <= 0 or width <= 0] turns down zero and
    the negative numbers and lets NaN through.  The only way it fails is the
    end of the input. *)
Theorem dimensions_are_positive_or_nan (lines : list string) :
  match left_and_result (Binary64.get_dimensions_loop float lines) with
  | (rest, Ok (L, B, W)) =>
      (Binary64.ltb (Binary64.of_int 0) L = true \/ L = S754_nan)
      /\ (Binary64.ltb (Binary64.of_int 0) B = true \/ B = S754_nan)
      /\ (Binary64.ltb (Binary64.of_int 0) W = true \/ W = S754_nan)
      /\ exists skipped l1 l2 l3,
           lines = skipped ++ l1 :: l2 :: l3 :: rest
           /\ float l1 = Some L /\ float l2 = Some B /\ float l3 = Some W
  | (rest, Raise e) => e = EOFError /\ rest = []
  end.
Proof.
  pose proof (binary64_get_dimensions_loop_spec lines) as H.
  destruct (left_and_result (Binary64.get_dimensions_loop float lines))
    as [rest [[[L B] W]|e]]; [|exact H].
  destruct H as (HL & HB & HW & H).
  apply not_le_zero_cases in HL, HB, HW. auto.
Qed.

End Binary64Questions.

(** The answers "nan", "2", "1" to the three questions are accepted as the
    dimensions of a rod; "0" and "-1" are not. *)
Example nan_is_accepted_as_a_dimension :
  left_and_result (Binary64.get_dimensions_loop sample_binary64 ["nan"; "2"; "1"])
  = ([], Ok (S754_nan, Binary64.of_int 2, Binary64.of_int 1))
  /\ left_and_result
       (Binary64.get_dimensions_loop sample_binary64 ["0"; "2"; "1"; "-1"; "2"; "1"])
     = ([], Raise EOFError).
Proof. vm_compute. split; reflexivity. Qed.

Section Readings.

Variable float : string -> option Q.
Variable format : Q -> string -> string.

Lemma readings_loop_result increment (lines : list string) (i : Z)
    (todo : nat) (readings : list reading) :
  snd (left_and_result (readings_loop float format increment lines i todo readings)) =
    if (todo <=? length (omap float lines))%nat
    then Ok (readings ++ numbered increment i (firstn todo (omap float lines)))
    else Raise EOFError.
Proof.
  revert i todo readings. induction lines as [|line lines IH]; intros i todo readings.
  - destruct todo; cbn; [now rewrite app_nil_r|reflexivity].
  - destruct todo as [|todo].
    + cbn. now rewrite app_nil_r.
    + cbn [readings_loop omap list_omap]. fold (omap float lines).
      destruct (float line) as [d|]; rewrite left_and_result_after, IH.
      * cbn [length firstn numbered Nat.leb].
        destruct (todo <=? length (omap float lines))%nat; [|reflexivity].
        now rewrite <- app_assoc.
      * reflexivity.
Qed.

Lemma readings_loop_left increment (lines : list string) (i : Z)
    (todo : nat) (readings : list reading) :
  exists used,
    lines = used
      ++ fst (left_and_result (readings_loop float format increment lines i todo readings)).
Proof.
  revert i todo readings. induction lines as [|line lines IH]; intros i todo readings.
  - destruct todo; now exists [].
  - destruct todo as [|todo]; [now exists []|].
    cbn [readings_loop].
    destruct (float line) as [d|]; rewrite left_and_result_after.
    + destruct (IH (i + 1)%Z todo
                  (readings ++ [Reading (i + 1) (increment * inject_Z (i + 1)) d]))
        as [used Hused].
      exists (line :: used). cbn [app]. now rewrite <- Hused.
    + destruct (IH i (S todo) readings) as [used Hused].
      exists (line :: used). cbn [app]. now rewrite <- Hused.
Qed.

(** X9. The readings are made of the first [todo] lines that parse as
    numbers, in order: they are numbered on from [i], the weight of reading
    number n is n times the increment, and the deflections are the numbers
    read.  Lines that do not parse are skipped without losing a reading;
    with fewer than [todo] lines that parse the input runs out. *)
Theorem readings_are_the_parsed_lines increment (lines : list string) (i : Z)
    (todo : nat) (readings : list reading) :
  snd (left_and_result (readings_loop float format increment lines i todo readings)) =
    if (todo <=? length (omap float lines))%nat
    then Ok (readings ++ numbered increment i (firstn todo (omap float lines)))
    else Raise EOFError.
Proof. apply readings_loop_result. Qed.

Lemma numbered_length increment i ds : length (numbered increment i ds) = length ds.
Proof. revert i. induction ds as [|d ds IH]; intros i; cbn; [reflexivity|now rewrite IH]. Qed.

End Readings.

Section Functions.

Ltac prints :=
  repeat match goal with
  | |- console_only _ _ (iobind (print _) _) =>
      eapply console_only_bind; [apply console_only_print|intros _ _]
  end.

Variable int : string -> option Z.
Variable float : string -> option Q.
Variable format : Q -> string -> string.

Lemma display_materials_loop_console i its :
  console_only no_exception (fun _ => True) (display_materials_loop format i its).
Proof.
  revert i. induction its as [|[key m] its IH]; intros i; cbn [display_materials_loop].
  - now apply console_only_ret.
  - eapply console_only_bind; [apply console_only_print|]. intros _ _. apply IH.
Qed.

Lemma display_materials_console :
  console_only no_exception (fun _ => True) (display_materials format).
Proof.
  unfold display_materials.
  prints.
  eapply console_only_bind; [apply display_materials_loop_console|intros _ _].
  apply console_only_print.
Qed.

Lemma no_exception_any allowed e : no_exception e -> allowed e.
Proof. intros []. Qed.

Lemma get_material_choice_console :
  console_only end_of_input (fun km => In km MATERIAL_DATABASE)
    (get_material_choice int format).
Proof.
  unfold get_material_choice.
  eapply console_only_bind.
  { eapply console_only_weaken; [apply no_exception_any|intros a H; exact H|].
    apply display_materials_console. }
  intros _ _.
  eapply console_only_bind; [apply console_only_print|intros _ _].
  eapply (question_spec int material_number material_at).
  - apply material_loop_result.
  - intros z Hz. destruct (material_at_entry z Hz) as (key & m & E & Hin).
    now exists (key, m).
Qed.

Lemma get_dimensions_console :
  console_only end_of_input (fun d => 0 < fst (fst d) /\ 0 < snd (fst d) /\ 0 < snd d)
    (get_dimensions float).
Proof.
  unfold get_dimensions.
  prints.
  apply console_only_reading_lines. intros lines.
  pose proof (get_dimensions_loop_spec float lines) as H.
  destruct (left_and_result (get_dimensions_loop float lines)) as [rest [[[L B] W]|e]];
    cbn [fst snd].
  - destruct H as (HL & HB & HW & skipped & l1 & l2 & l3 & E & _).
    split; [|auto]. exists (skipped ++ [l1; l2; l3]). now rewrite <- app_assoc.
  - destruct H as [-> ->]. split; [|reflexivity]. exists lines. now rewrite app_nil_r.
Qed.

Lemma get_bending_type_console :
  console_only end_of_input (fun bt => bt = 1 \/ bt = 2)%Z (get_bending_type int).
Proof.
  unfold get_bending_type.
  prints.
  eapply (question_spec int bending_number Ok).
  - apply bending_loop_result.
  - intros z Hz. exists z. split; [reflexivity|].
    unfold bending_number in Hz. apply orb_true_iff in Hz as [H|H];
      apply Z.eqb_eq in H; auto.
Qed.

Lemma get_readings_console :
  console_only end_of_input well_formed_readings (get_readings int float format).
Proof.
  unfold get_readings.
  prints.
  eapply console_only_bind.
  { eapply (question_spec int positive_int Ok (fun z => (0 < z)%Z)).
    - apply num_readings_loop_result.
    - intros z Hz. exists z. split; [reflexivity|]. now apply Z.ltb_lt. }
  intros num Hnum.
  eapply console_only_bind.
  { eapply (question_spec float positive_float Ok (fun x => 0 < x)).
    - apply weight_increment_loop_result.
    - intros x Hx. exists x. split; [reflexivity|]. now apply lt_true. }
  intros inc Hinc.
  prints.
  eapply console_only_bind with (P := fun rs => rs <> [] /\ exists ds, rs = numbered inc 0 ds).
  - apply console_only_reading_lines. intros lines.
    split; [apply readings_loop_left|].
    rewrite readings_loop_result.
    destruct (Z.to_nat num <=? length (omap float lines))%nat eqn:E; [|reflexivity].
    cbn [app]. split; [|eauto].
    intros Hnil. apply (f_equal (@length _)) in Hnil.
    rewrite numbered_length, length_firstn in Hnil. apply Nat.leb_le in E.
    cbn [length] in Hnil. cbv beta in Hnum. lia.
  - intros rs [Hne Hds]. apply console_only_ret. now split.
Qed.

(** X10. The four questions of the program use the console only: they write
    no file, only add to the output and only consume input, and the one
    exception they raise is [EOFError] at the end of the input.  The material
    they return is an entry of the database, the bending type is 1 or 2, and
    there is at least one reading. *)
Theorem questions_use_the_console_only :
  console_only end_of_input (fun km => In km MATERIAL_DATABASE)
    (get_material_choice int format)
  /\ console_only end_of_input (fun _ => True) (get_dimensions float)
  /\ console_only end_of_input (fun bt => bt = 1 \/ bt = 2)%Z (get_bending_type int)
  /\ console_only end_of_input
       (fun c => fst c <> [])
       (get_readings int float format).
Proof.
  split; [apply get_material_choice_console|].
  split.
  { eapply console_only_weaken; [| |apply get_dimensions_console]; auto. }
  split; [apply get_bending_type_console|].
  eapply console_only_weaken; [| |apply get_readings_console]; [auto|].
  intros c (_ & H & _). exact H.
Qed.

End Functions.

(** ** The report on the console, the menu and the report file *)

Section Emits.

Lemma emits_ret {A} (a : A) : emits [] a (ret a).
Proof. intros [i o f]. unfold ret. cbn [stdin stdout files]. now rewrite app_nil_r. Qed.

Lemma emits_print s : emits [s +:+ nl] tt (print s).
Proof. intros w. reflexivity. Qed.

Lemma emits_bind {A B} o1 o2 (a : A) (b : B) (m : IO A) (k : A -> IO B) :
  emits o1 a m -> emits o2 b (k a) -> emits (o1 ++ o2) b (iobind m k).
Proof.
  intros Hm Hk w. unfold iobind. rewrite Hm, Hk. cbn [stdin stdout files].
  now rewrite app_assoc.
Qed.

Lemma emits_print_cons {B} s out (b : B) (k : unit -> IO B) :
  emits out b (k tt) -> emits ((s +:+ nl) :: out) b (iobind (print s) k).
Proof. intros H. apply (emits_bind [s +:+ nl] out tt b), H. apply emits_print. Qed.

Lemma emits_print_before {B} s before rest (b : B) (k : unit -> IO B) :
  emits (before ++ rest) b (k tt) ->
  emits (((s +:+ nl) :: before) ++ rest) b (iobind (print s) k).
Proof. apply emits_print_cons. Qed.

Lemma emits_bind_here {A B} o1 o2 (a : A) (b : B) (m : IO A) (k : A -> IO B) :
  emits o1 a m -> emits o2 b (k a) -> emits ([] ++ o1 ++ o2) b (iobind m k).
Proof. exact (emits_bind o1 o2 a b m k). Qed.

Lemma emits_lift {A B} (a : A) out (b : B) (k : A -> IO B) :
  emits out b (k a) -> emits out b (iobind (lift (Ok a)) k).
Proof. intros H w. unfold iobind, lift. apply H. Qed.

Lemma emits_console_only {A} out (a : A) m allowed (P : A -> Prop) :
  emits out a m -> P a -> console_only allowed P m.
Proof.
  intros H Ha w. rewrite H. cbn [fst snd]. split; [|exact Ha].
  repeat split; cbn [stdin stdout files]; [now exists out|now exists []].
Qed.

End Emits.

Section Table.

Variable format : Q -> string -> string.

Lemma individual_modulus_shown L B W bt r :
  ~ L == 0 -> ~ B == 0 -> ~ W == 0 ->
  individual_modulus L (B * W ^ 3 / 12) bt r = Ok (shown_modulus bt L B W r).
Proof.
  intros HL HB HW. unfold individual_modulus.
  change (truediv (weight r) 1000) with (Ok (weight r / 1000)).
  change (truediv (depression r) 100) with (Ok (depression r / 100)).
  change (truediv L 100) with (Ok (L / 100)).
  change (truediv (B * W ^ 3 / 12) 100000000) with (Ok (B * W ^ 3 / 12 / 100000000)).
  cbn [Py.bind]. rewrite ne_div_100.
  unfold shown_modulus, modulus_formula, included.
  destruct (Py.ne (depression r) 0) eqn:E; [|reflexivity].
  apply ne_true in E.
  destruct (bt =? 1)%Z.
  - rewrite truediv_ok by (apply div_100_nonzero; exact HL). cbn [Py.bind].
    rewrite truediv_ok by (apply denominator_nonzero; [discriminate|assumption..]).
    reflexivity.
  - rewrite truediv_ok by (apply denominator_nonzero; [discriminate|assumption..]).
    reflexivity.
Qed.

Lemma display_readings_rows L B W bt rs :
  ~ L == 0 -> ~ B == 0 -> ~ W == 0 ->
  emits (table_rows format bt L B W rs) tt
    (display_readings format L (B * W ^ 3 / 12) bt rs).
Proof.
  intros HL HB HW. induction rs as [|r rs IH]; cbn [display_readings table_rows map].
  - apply emits_ret.
  - rewrite individual_modulus_shown by assumption.
    apply emits_lift, emits_print_cons, IH.
Qed.

Lemma display_percentage_difference_emits material calculated :
  exists out, emits out tt (display_percentage_difference format material calculated).
Proof.
  unfold display_percentage_difference.
  destruct (Py.ne _ _) eqn:E.
  - apply ne_true in E. rewrite (truediv_ok _ _ E).
    eexists. apply emits_lift. cbv zeta. apply emits_print.
  - eexists. apply emits_ret.
Qed.

Lemma display_analysis_emits material calculated :
  ~ value (youngs_modulus material) == 0 ->
  exists out, emits out tt (display_analysis material calculated).
Proof.
  intros H. eexists. intros w. now rewrite display_analysis_ok.
Qed.

Ltac prints_before :=
  repeat match goal with
  | |- emits _ _ (iobind (print _) _) => eapply emits_print_before
  end.

Ltac prints_after :=
  repeat match goal with
  | |- emits _ _ (iobind (print _) _) => eapply emits_print_cons
  end.

Lemma display_results_emits key material L B W bt calculated :
  ~ L == 0 -> ~ B == 0 -> ~ W == 0 -> ~ value (youngs_modulus material) == 0 ->
  exists before after, forall rs,
    emits (before ++ table_rows format bt L B W rs ++ after) tt
      (display_results format key material L B W bt rs calculated).
Proof.
  intros HL HB HW Href.
  destruct (display_percentage_difference_emits material calculated) as [o1 H1].
  destruct (display_analysis_emits material calculated Href) as [o2 H2].
  do 2 eexists. intros rs. unfold display_results. cbv zeta.
  prints_before. rewrite moment_of_inertia_ok. apply emits_lift.
  prints_before.
  eapply emits_bind_here; [now apply display_readings_rows|].
  prints_after.
  eapply emits_bind; [exact H1|].
  prints_after.
  eapply emits_bind; [exact H2|].
  apply emits_print.
Qed.

End Table.

Section FileNames.

Lemma string_length_app (a b : string) :
  String.length (a +:+ b) = (String.length a + String.length b)%nat.
Proof.
  induction a as [|c a IH]; [now rewrite string_app_empty|].
  rewrite string_app_cons. cbn [String.length]. now rewrite IH.
Qed.

Lemma append_inv_head (p a b : string) : p +:+ a = p +:+ b -> a = b.
Proof.
  induction p as [|c p IH]; [now rewrite !string_app_empty|].
  rewrite !string_app_cons. intros H. injection H as H. auto.
Qed.

Lemma append_inv_tail (a b s t : string) :
  String.length s = String.length t -> a +:+ s = b +:+ t -> a = b /\ s = t.
Proof.
  intros Hlen. revert b. induction a as [|c a IH]; intros [|c' b];
    rewrite ?string_app_empty, ?string_app_cons; intros H.
  - now split.
  - apply (f_equal String.length) in H. cbn [String.length] in H.
    rewrite string_length_app in H. lia.
  - apply (f_equal String.length) in H. cbn [String.length] in H.
    rewrite string_length_app in H. lia.
  - injection H as -> H. destruct (IH b H) as [-> ->]. now split.
Qed.

Lemma report_filename_injective key key' bt bt' :
  (bt = 1 \/ bt = 2)%Z -> (bt' = 1 \/ bt' = 2)%Z ->
  report_filename key bt = report_filename key' bt' -> key = key' /\ bt = bt'.
Proof.
  unfold report_filename. intros Hbt Hbt' H. apply append_inv_head in H.
  apply append_inv_tail in H.
  - destruct H as [-> H]. split; [reflexivity|].
    destruct Hbt as [-> | ->], Hbt' as [-> | ->]; (reflexivity || discriminate H).
  - destruct Hbt as [-> | ->], Hbt' as [-> | ->]; reflexivity.
Qed.

(** X12. The name of the report file tells the material and the bending
    type apart: for bending types 1 and 2, two reports have the same file
    name only when they are of the same material key and the same bending
    type, so a report replaces only an earlier report of the same kind. *)
Theorem report_names_do_not_collide key key' bt bt' :
  (bt = 1 \/ bt = 2)%Z -> (bt' = 1 \/ bt' = 2)%Z ->
  report_filename key bt = report_filename key' bt' <-> key = key' /\ bt = bt'.
Proof.
  intros Hbt Hbt'. split.
  - now apply report_filename_injective.
  - now intros [-> ->].
Qed.

Lemma report_names_do_not_collide_witness :
  (report_filename "oak_wood" 1 = report_filename "oak" 2
   <-> "oak_wood" = "oak" /\ 1 = 2)%Z.
Proof. apply report_names_do_not_collide; auto. Defined.

End FileNames.

Section Menu.

Variable format : Q -> string -> string.

Lemma display_materials_loop_emits n its :
  emits (menu_lines format n its) tt (display_materials_loop format n its).
Proof.
  revert n. induction its as [|[key m] its IH]; intros n;
    cbn [display_materials_loop menu_lines].
  - apply emits_ret.
  - apply emits_print_cons, IH.
Qed.

Lemma display_materials_emits :
  exists before after,
    emits (before ++ menu_lines format 1 MATERIAL_DATABASE ++ after) tt
      (display_materials format).
Proof.
  do 2 eexists. unfold display_materials.
  repeat match goal with
  | |- emits _ _ (iobind (print _) _) => eapply emits_print_before
  end.
  eapply emits_bind_here; [apply display_materials_loop_emits|].
  apply emits_print.
Qed.

Lemma menu_lines_nth n its i km :
  nth_error its i = Some km ->
  nth_error (menu_lines format n its) i = Some (menu_line format (n + Z.of_nat i) km).
Proof.
  revert n i. induction its as [|km' its IH]; intros n [|i]; cbn [nth_error menu_lines];
    try discriminate.
  - intros [= ->]. now rewrite Z.add_0_r.
  - intros H. rewrite (IH (n + 1)%Z i H). do 2 f_equal. lia.
Qed.

Lemma entry_selected i km :
  nth_error MATERIAL_DATABASE i = Some km ->
  material_choice (1 + Z.of_nat i) = Some (Ok km).
Proof.
  intros H.
  assert (Hi : (i < length MATERIAL_DATABASE)%nat) by (apply nth_error_Some; congruence).
  change (length MATERIAL_DATABASE) with 13%nat in Hi.
  destruct (material_choice_in_range (1 + Z.of_nat i)) as (key & m & Hnth & Hc);
    [lia|].
  replace (Z.to_nat (1 + Z.of_nat i - 1)) with i in Hnth by lia.
  congruence.
Qed.

(** X13. The menu and the choice agree: [display_materials] prints, between
    a heading and a closing rule, one line per entry of the database in its
    order, numbered from 1, and the number printed beside an entry is the
    choice for which [get_material_choice] returns that entry. *)
Theorem menu_numbers_select_their_entries :
  (exists before after,
     emits (before ++ menu_lines format 1 MATERIAL_DATABASE ++ after) tt
       (display_materials format))
  /\ forall i km,
       nth_error MATERIAL_DATABASE i = Some km ->
       nth_error (menu_lines format 1 MATERIAL_DATABASE) i
         = Some (menu_line format (1 + Z.of_nat i) km)
       /\ material_choice (1 + Z.of_nat i) = Some (Ok km).
Proof.
  split; [apply display_materials_emits|].
  intros i km H. split; [now apply menu_lines_nth|now apply entry_selected].
Qed.

End Menu.

(** ** The whole program *)

Section WholeProgram.

Variable int : string -> option Z.
Variable float : string -> option Q.
Variable format : Q -> string -> string.

Lemma catalog_references_nonzero key m :
  In (key, m) MATERIAL_DATABASE -> ~ value (youngs_modulus m) == 0.
Proof.
  intros H.
  assert (F : forallb (fun km => Py.ne (value (youngs_modulus (snd km))) 0)
                MATERIAL_DATABASE = true) by reflexivity.
  rewrite forallb_forall in F. apply F in H. now apply ne_true in H.
Qed.

Lemma save_option_end_of_input key material L B W bt rs calculated out fs :
  save_option format key material L B W bt rs calculated (World [] out fs) =
    (World [] (out ++ [save_question]) fs, Raise EOFError).
Proof. reflexivity. Qed.

Lemma console_step_report_step w w' : console_step w w' -> report_step w w'.
Proof. intros (F & O & U). repeat split; auto. Qed.

Lemma console_then_report_step w1 w2 w3 :
  console_step w1 w2 -> report_step w2 w3 -> report_step w1 w3.
Proof.
  intros (F1 & [o1 O1] & [u1 U1]) ([o2 O2] & [u2 U2] & F2). repeat split.
  - exists (o1 ++ o2). now rewrite O2, O1, app_assoc.
  - exists (u1 ++ u2). now rewrite U1, U2, app_assoc.
  - rewrite <- F1. exact F2.
Qed.

Lemma console_then_runs {A B} (P : A -> Prop) (m : IO A) (k : A -> IO B) :
  console_only end_of_input P m ->
  (forall a, P a -> runs_by report_step (k a)) ->
  runs_by report_step (iobind m k).
Proof.
  intros Hm Hk w. unfold iobind. destruct (Hm w) as [Hs Hr].
  destruct (m w) as [w1 [a|e]]; cbn [fst snd] in *.
  - destruct (Hk a Hr w1) as [Hs' Hr']. split; [|exact Hr'].
    now apply console_then_report_step with w1.
  - split; [now apply console_step_report_step|]. right. now rewrite Hr.
Qed.

Lemma save_option_runs key material L B W bt rs calculated :
  In (key, material) MATERIAL_DATABASE -> (bt = 1 \/ bt = 2)%Z ->
  runs_by report_step (save_option format key material L B W bt rs calculated).
Proof.
  intros Hin Hbt [[|line rest] out fs].
  - rewrite save_option_end_of_input. cbn [fst snd stdin stdout files].
    split; [|now right]. repeat split; cbn [stdin stdout files]; eauto.
    now exists [].
  - rewrite save_option_run. cbn [fst snd]. split; [|left; eauto].
    repeat split; cbn [stdin stdout files]; eauto.
    + now exists [line].
    + destruct (affirmative line); [right|now left].
      exists key, material, bt. eauto.
Qed.

Ltac console_prints :=
  repeat match goal with
  | |- runs_by _ (iobind (print _) _) =>
      eapply console_then_runs; [apply console_only_print|intros _ _]
  end.

Lemma main_runs : runs_by report_step (main int float format).
Proof.
  unfold main. console_prints.
  eapply console_then_runs; [apply get_material_choice_console|].
  intros [key material] Hin.
  eapply console_then_runs; [apply get_dimensions_console|].
  intros [[L B] W] (HL & HB & HW). cbn [fst snd] in HL, HB, HW.
  eapply console_then_runs; [apply get_bending_type_console|].
  intros bt Hbt.
  eapply console_then_runs; [apply get_readings_console|].
  intros [rs increment] _.
  destruct (calculated_mean bt L B W rs HL HB HW) as (y & Hy & _).
  unfold calculated in Hy. rewrite Hy.
  eapply console_then_runs with (P := fun _ => True).
  { now apply console_only_lift. }
  intros calculated _.
  apply positive_nonzero in HL, HB, HW.
  destruct (display_results_emits format key material L B W bt calculated HL HB HW
              (catalog_references_nonzero key material Hin)) as (before & after & H).
  eapply console_then_runs with (P := fun _ => True).
  { eapply emits_console_only; [apply H|exact I]. }
  intros _ _. now apply save_option_runs.
Qed.

(** X14. Whatever is typed, the whole program never fails a lookup: it
    raises neither [IndexError] nor [KeyError], the choice it accepts being
    in the range of the database and the key it looks up a key of it. *)
Theorem main_never_fails_a_lookup w :
  snd (main int float format w) <> Raise IndexError
  /\ snd (main int float format w) <> Raise KeyError.
Proof.
  destruct (main_runs w) as [_ [[a ->] | ->]]; split; discriminate.
Qed.

(** X15. The whole program only adds to the output, only consumes input,
    and leaves the files as they were or writes one file: the report named
    after a material of the database and the bending type 1 or 2; every
    other file is untouched, whatever is typed and also when the input runs
    out. *)
Theorem main_writes_at_most_its_report w :
  report_step w (fst (main int float format w)).
Proof. apply main_runs. Qed.

End WholeProgram.
